(** * WebsocketMultiAccountSubscriber: a shallow embedding

    Source: [driftpy/accounts/ws/multi_account_subscriber.py].

    The subscriber multiplexes many logical feeds over one websocket.  The
    object's fields become a record [State]; every method and every handler
    of the reader task becomes a function from [State] to a new [State]
    together with the list of externally visible effects it performed
    (frames handed to the socket, warnings, printed errors).  The answers of
    the environment (does the snapshot fetch fail?  does [ws.send] raise?)
    are explicit arguments.

    Python [int] is [Z]; a [dict] is a [gmap]; a [set] is a [gset]; the list
    [pending_subscriptions] is a [list].  The types and functions of
    [solders] and of the Python runtime that the file only imports
    ([Pubkey], [str(pubkey)], [Pubkey.from_string], [int(str)]) are the
    fields of the class [Externals]. *)

From Stdlib Require Import ZArith List Lia Ascii String Sorted.
From stdpp Require Import base option list gmap sets strings sorting.

Local Open Scope Z_scope.

(** ** Data model *)

(** What the file imports and never defines. *)
Class Externals : Type := {
  (** [solders.pubkey.Pubkey]: hashable, compared by value. *)
  Pubkey : Type;
  Pubkey_eq_dec :: EqDecision Pubkey;
  Pubkey_countable :: Countable Pubkey;
  (** [str(pubkey)] *)
  pubkey_str : Pubkey → string;
  (** [Pubkey.from_string(s)]; [None] when it raises. *)
  pubkey_from_string : string → option Pubkey;
  (** [int(s)] on a [str]; [None] when it raises [ValueError]. *)
  int_of_str : string → option Z;
  (** The decoded account record ([Any] in the source). *)
  V : Type;
  (** [self.program.coder.accounts.decode], the decoder used when the
      caller passes none; [None] stands for a raised exception. *)
  default_decode : list Byte.byte → option V
}.

(** Raw account bytes as received on the wire. *)
Abbreviation bytes := (list Byte.byte) (only parsing).

(** [Callable[[bytes], Any]]; [None] stands for a raised exception. *)
Abbreviation Decoder := (bytes → option V) (only parsing).

Section Model.
Context `{Externals}.

(** [driftpy.accounts.DataAndSlot] *)
Record DataAndSlot : Type := mkDataAndSlot { slot : Z; data : V }.

(** The fields of [WebsocketMultiAccountSubscriber.__init__].  [ws] and
    [task] record whether the field is not [None]. *)
Record State : Type := mkState {
  ws : bool;
  task : bool;
  running : bool;
  subscription_map : gmap Z Pubkey;
  pubkey_to_subscription : gmap Pubkey Z;
  decode_map : gmap string Decoder;
  data_map : gmap string (option DataAndSlot);
  initial_data_map : gmap string (option DataAndSlot);
  pending_subscriptions : list Pubkey;
  pubkey_to_oracle_ids : gmap Pubkey (gset string);
  oracle_id_to_subscription : gmap string Z;
  request_id_counter : Z;
  inflight_subscribes : gmap Z (Pubkey * option string)
}.

(** The state built by [__init__]. *)
Definition init_state : State :=
  {| ws := false; task := false; running := false;
     subscription_map := ∅; pubkey_to_subscription := ∅;
     decode_map := ∅; data_map := ∅; initial_data_map := ∅;
     pending_subscriptions := [];
     pubkey_to_oracle_ids := ∅; oracle_id_to_subscription := ∅;
     request_id_counter := 0; inflight_subscribes := ∅ |}.

(** Field updates. *)
Definition set_ws (b : bool) (s : State) : State :=
  mkState b (task s) (running s) (subscription_map s)
    (pubkey_to_subscription s) (decode_map s) (data_map s)
    (initial_data_map s) (pending_subscriptions s) (pubkey_to_oracle_ids s)
    (oracle_id_to_subscription s) (request_id_counter s)
    (inflight_subscribes s).

Definition set_task (b : bool) (s : State) : State :=
  mkState (ws s) b (running s) (subscription_map s)
    (pubkey_to_subscription s) (decode_map s) (data_map s)
    (initial_data_map s) (pending_subscriptions s) (pubkey_to_oracle_ids s)
    (oracle_id_to_subscription s) (request_id_counter s)
    (inflight_subscribes s).

Definition set_running (b : bool) (s : State) : State :=
  mkState (ws s) (task s) b (subscription_map s)
    (pubkey_to_subscription s) (decode_map s) (data_map s)
    (initial_data_map s) (pending_subscriptions s) (pubkey_to_oracle_ids s)
    (oracle_id_to_subscription s) (request_id_counter s)
    (inflight_subscribes s).

Definition set_subscription_map (m : gmap Z Pubkey) (s : State) : State :=
  mkState (ws s) (task s) (running s) m
    (pubkey_to_subscription s) (decode_map s) (data_map s)
    (initial_data_map s) (pending_subscriptions s) (pubkey_to_oracle_ids s)
    (oracle_id_to_subscription s) (request_id_counter s)
    (inflight_subscribes s).

Definition set_pubkey_to_subscription (m : gmap Pubkey Z) (s : State)
  : State :=
  mkState (ws s) (task s) (running s) (subscription_map s)
    m (decode_map s) (data_map s)
    (initial_data_map s) (pending_subscriptions s) (pubkey_to_oracle_ids s)
    (oracle_id_to_subscription s) (request_id_counter s)
    (inflight_subscribes s).

Definition set_decode_map (m : gmap string Decoder) (s : State) : State :=
  mkState (ws s) (task s) (running s) (subscription_map s)
    (pubkey_to_subscription s) m (data_map s)
    (initial_data_map s) (pending_subscriptions s) (pubkey_to_oracle_ids s)
    (oracle_id_to_subscription s) (request_id_counter s)
    (inflight_subscribes s).

Definition set_data_map (m : gmap string (option DataAndSlot)) (s : State)
  : State :=
  mkState (ws s) (task s) (running s) (subscription_map s)
    (pubkey_to_subscription s) (decode_map s) m
    (initial_data_map s) (pending_subscriptions s) (pubkey_to_oracle_ids s)
    (oracle_id_to_subscription s) (request_id_counter s)
    (inflight_subscribes s).

Definition set_initial_data_map (m : gmap string (option DataAndSlot))
  (s : State) : State :=
  mkState (ws s) (task s) (running s) (subscription_map s)
    (pubkey_to_subscription s) (decode_map s) (data_map s)
    m (pending_subscriptions s) (pubkey_to_oracle_ids s)
    (oracle_id_to_subscription s) (request_id_counter s)
    (inflight_subscribes s).

Definition set_pending_subscriptions (l : list Pubkey) (s : State) : State :=
  mkState (ws s) (task s) (running s) (subscription_map s)
    (pubkey_to_subscription s) (decode_map s) (data_map s)
    (initial_data_map s) l (pubkey_to_oracle_ids s)
    (oracle_id_to_subscription s) (request_id_counter s)
    (inflight_subscribes s).

Definition set_pubkey_to_oracle_ids (m : gmap Pubkey (gset string))
  (s : State) : State :=
  mkState (ws s) (task s) (running s) (subscription_map s)
    (pubkey_to_subscription s) (decode_map s) (data_map s)
    (initial_data_map s) (pending_subscriptions s) m
    (oracle_id_to_subscription s) (request_id_counter s)
    (inflight_subscribes s).

Definition set_oracle_id_to_subscription (m : gmap string Z) (s : State)
  : State :=
  mkState (ws s) (task s) (running s) (subscription_map s)
    (pubkey_to_subscription s) (decode_map s) (data_map s)
    (initial_data_map s) (pending_subscriptions s) (pubkey_to_oracle_ids s)
    m (request_id_counter s)
    (inflight_subscribes s).

Definition set_request_id_counter (n : Z) (s : State) : State :=
  mkState (ws s) (task s) (running s) (subscription_map s)
    (pubkey_to_subscription s) (decode_map s) (data_map s)
    (initial_data_map s) (pending_subscriptions s) (pubkey_to_oracle_ids s)
    (oracle_id_to_subscription s) n
    (inflight_subscribes s).

Definition set_inflight_subscribes (m : gmap Z (Pubkey * option string))
  (s : State) : State :=
  mkState (ws s) (task s) (running s) (subscription_map s)
    (pubkey_to_subscription s) (decode_map s) (data_map s)
    (initial_data_map s) (pending_subscriptions s) (pubkey_to_oracle_ids s)
    (oracle_id_to_subscription s) (request_id_counter s)
    m.

(** ** [_update_data] (lines 548-554) *)

(** [self.data_map.get(key)]: [None] both when the key is absent and when
    the stored value is [None]. *)
Definition cached (key : string) (s : State) : option DataAndSlot :=
  match data_map s !! key with
  | Some v => v
  | None => None
  end.

Definition _update_data (key : string) (new_data : option DataAndSlot)
  (s : State) : State :=
  match new_data with
  | None => s
  | Some nd =>
      match cached key s with
      | None => set_data_map (<[key := Some nd]> (data_map s)) s
      | Some cur =>
          if slot nd >=? slot cur
          then set_data_map (<[key := Some nd]> (data_map s)) s
          else s
      end
  end.


(** ** Effects and answers of the environment *)

(** What a method does to the outside world, in program order. *)
Inductive Effect : Type :=
  | SubscribeFrame (request_id : Z) (pubkey : Pubkey)
      (** [ws.send] of an [accountSubscribe] message with this [id] *)
  | UnsubscribeFrame (subscription_id : Z)
      (** [ws.account_unsubscribe(subscription_id)] *)
  | CloseSocket                        (** [ws.close()] *)
  | CancelTask                         (** [task.cancel()] *)
  | FetchSnapshot (pubkey : Pubkey)    (** [get_account_data_and_slot] *)
  | PrintFetchError (pubkey : Pubkey)
  | PrintSubscribeError (pubkey : Pubkey)
  | PrintMultipleOracleIds (key : string)
  | WarnInvalidRequestId (raw : string)
  | WarnFallbackPop
  | WarnNoPending (request_id : option Z) (result : Z)
  | WarnUnknownSubscription (subscription_id : option Z).

(** The answer of [get_account_data_and_slot]. *)
Inductive FetchOutcome : Type :=
  | FetchReturns (d : option DataAndSlot)
  | FetchRaises.

(** ** [add_account] (lines 50-139) *)

(** Lines 57-63. *)
Definition decode_or_default (decode : option Decoder) : Decoder :=
  match decode with
  | Some d => d
  | None => default_decode
  end.

Definition key_of (pubkey : Pubkey) (oracle_id : option string) : string :=
  match oracle_id with
  | Some o => o
  | None => pubkey_str pubkey
  end.

(** [oracle_ids = self.pubkey_to_oracle_ids.get(pubkey, set())] *)
Definition oracle_ids_of (pubkey : Pubkey) (s : State) : gset string :=
  default ∅ (pubkey_to_oracle_ids s !! pubkey).

(** Lines 70-72 and 90-92: create the set if missing, then [add]. *)
Definition add_oracle_id (pubkey : Pubkey) (o : string) (s : State) : State :=
  set_pubkey_to_oracle_ids
    (<[pubkey := oracle_ids_of pubkey s ∪ {[o]}]> (pubkey_to_oracle_ids s)) s.

Definition store_initial (key : string) (initial_data : option DataAndSlot)
  (s : State) : State :=
  match initial_data with
  | Some d => set_data_map (<[key := Some d]> (data_map s)) s
  | None => s
  end.

(** First critical section, lines 65-92.  The second component is [None]
    when the method returns at line 79, and otherwise the value of the local
    [initial_data] after line 86. *)
Definition add_account_register (pubkey : Pubkey) (decode_fn : Decoder)
  (initial_data : option DataAndSlot) (oracle_id : option string)
  (s : State) : State * option (option DataAndSlot) :=
  let key := key_of pubkey oracle_id in
  match pubkey_to_subscription s !! pubkey with
  | Some subscription_id =>
      (match oracle_id with
       | Some o =>
           let s1 := add_oracle_id pubkey o s in
           let s2 := set_oracle_id_to_subscription
                       (<[o := subscription_id]>
                          (oracle_id_to_subscription s1)) s1 in
           let s3 := set_decode_map (<[key := decode_fn]> (decode_map s2)) s2 in
           store_initial key initial_data s3
       | None => s
       end, None)
  | None =>
      let s1 := set_decode_map (<[key := decode_fn]> (decode_map s)) s in
      let s2 := store_initial key initial_data s1 in
      let local_initial :=
        match initial_data with
        | Some d => Some d
        | None => cached key s1
        end in
      let s3 := match oracle_id with
                | Some o => add_oracle_id pubkey o s2
                | None => s2
                end in
      (s3, Some local_initial)
  end.

(** Lines 95-104.  The boolean says whether the method goes on to line 107
    ([false]: it returned at line 104). *)
Definition add_account_fetch (pubkey : Pubkey) (key : string)
  (local_initial : option DataAndSlot) (fetch : FetchOutcome) (s : State)
  : State * list Effect * bool :=
  match local_initial with
  | Some _ => (s, [], true)
  | None =>
      match fetch with
      | FetchReturns d =>
          (set_data_map (<[key := d]> (data_map s)) s,
           [FetchSnapshot pubkey], true)
      | FetchRaises =>
          (s, [FetchSnapshot pubkey; PrintFetchError pubkey], false)
      end
  end.

(** Lines 114-139 (and 246-271): take the next request id, record the
    request as in flight, hand the frame to the socket; when [send] raises,
    print and retract the in-flight entry. *)
Definition send_subscribe (pubkey : Pubkey) (oracle_id : option string)
  (send_ok : bool) (s : State) : State * list Effect :=
  let request_id := request_id_counter s + 1 in
  let s1 := set_request_id_counter request_id s in
  let s2 := set_inflight_subscribes
              (<[request_id := (pubkey, oracle_id)]> (inflight_subscribes s1))
              s1 in
  if send_ok then (s2, [SubscribeFrame request_id pubkey])
  else (set_inflight_subscribes
          (delete request_id (inflight_subscribes s2)) s2,
        [SubscribeFrame request_id pubkey; PrintSubscribeError pubkey]).

(** Lines 107-139. *)
Definition add_account_send (pubkey : Pubkey) (oracle_id : option string)
  (send_ok : bool) (s : State) : State * list Effect :=
  if ws s then
    match pubkey_to_subscription s !! pubkey with
    | Some _ => (s, [])
    | None => send_subscribe pubkey oracle_id send_ok s
    end
  else (s, []).

(** The whole method, run without interleaving.  [fetch] and [send_ok] are
    consulted only when the method reaches the corresponding call. *)
Definition add_account (pubkey : Pubkey) (decode : option Decoder)
  (initial_data : option DataAndSlot) (oracle_id : option string)
  (fetch : FetchOutcome) (send_ok : bool) (s : State) : State * list Effect :=
  let decode_fn := decode_or_default decode in
  let key := key_of pubkey oracle_id in
  match add_account_register pubkey decode_fn initial_data oracle_id s with
  | (s1, None) => (s1, [])
  | (s1, Some local_initial) =>
      match add_account_fetch pubkey key local_initial fetch s1 with
      | (s2, e2, false) => (s2, e2)
      | (s2, e2, true) =>
          let '(s3, e3) := add_account_send pubkey oracle_id send_ok s2 in
          (s3, e2 ++ e3)
      end
  end.

(** ** [remove_account] (lines 141-191) *)

(** Lines 147-152 and 161-166. *)
Definition forget_oracle_id (o : string) (s : State) : State :=
  let s1 := set_oracle_id_to_subscription
              (delete o (oracle_id_to_subscription s)) s in
  let s2 := set_decode_map (delete o (decode_map s1)) s1 in
  set_data_map (delete o (data_map s2)) s2.

(** Lines 143-167.  The boolean is [true] when the method returns at
    line 156. *)
Definition remove_account_keys (pubkey : Pubkey) (oracle_id : option string)
  (s : State) : State * bool :=
  match oracle_id with
  | Some o =>
      let s1 :=
        match pubkey_to_oracle_ids s !! pubkey with
        | Some ids =>
            forget_oracle_id o
              (set_pubkey_to_oracle_ids
                 (<[pubkey := ids ∖ {[o]}]> (pubkey_to_oracle_ids s)) s)
        | None => s
        end in
      (s1, match pubkey_to_oracle_ids s1 !! pubkey with
           | Some ids => bool_decide (ids ≠ ∅)
           | None => false
           end)
  | None =>
      (match pubkey_to_oracle_ids s !! pubkey with
       | Some ids =>
           let s1 := set_fold forget_oracle_id s ids in
           set_pubkey_to_oracle_ids
             (delete pubkey (pubkey_to_oracle_ids s1)) s1
       | None => s
       end, false)
  end.

(** Lines 185-191. *)
Definition purge_pubkey_str (pubkey_s : string) (s : State) : State :=
  let s1 := set_decode_map (delete pubkey_s (decode_map s)) s in
  let s2 := set_data_map (delete pubkey_s (data_map s1)) s1 in
  set_initial_data_map (delete pubkey_s (initial_data_map s2)) s2.

(** The whole method.  The boolean is [true] when [del
    self.subscription_map[subscription_id]] raises [KeyError] (line 181);
    the state is then the one reached at that line. *)
Definition remove_account (pubkey : Pubkey) (oracle_id : option string)
  (s : State) : State * list Effect * bool :=
  match remove_account_keys pubkey oracle_id s with
  | (s1, true) => (s1, [], false)
  | (s1, false) =>
      match pubkey_to_subscription s1 !! pubkey with
      | None => (s1, [], false)
      | Some subscription_id =>
          let effs :=
            if ws s1 then [UnsubscribeFrame subscription_id] else [] in
          match subscription_map s1 !! subscription_id with
          | None => (s1, effs, true)
          | Some _ =>
              let s2 := set_subscription_map
                          (delete subscription_id (subscription_map s1)) s1 in
              let s3 := set_pubkey_to_subscription
                          (delete pubkey (pubkey_to_subscription s2)) s2 in
              (purge_pubkey_str (pubkey_str pubkey) s3, effs, false)
          end
      end
  end.

(** ** The reader task [_subscribe_ws] (lines 199-546) *)

(** The [id] member of a parsed message (line 328). *)
Inductive IdField : Type :=
  | IdNone
  | IdInt (n : Z)
  | IdStr (raw : string).

(** A received message after [json.loads] and [FakeMsg] (lines 283-329).
    - [Confirmation]: [result] is an [int] (line 310).
    - [Notification]: [result] is a [FakeResult] built from a dict, so that
      [result.value] is not [None]; [slot] is the outcome of
      [int(result.context.slot)], [None] when it raises.
    - [OtherFrame]: everything else, including text that does not parse;
      neither branch of lines 369 and 414 is taken. *)
Inductive Frame : Type :=
  | Confirmation (result : Z) (id : IdField)
  | Notification (subscription : option Z) (slot_field : option Z)
      (account_bytes : bytes)
  | OtherFrame.

(** Lines 373-382. *)
Definition parse_request_id (id : IdField) : option Z * list Effect :=
  match id with
  | IdNone => (None, [])
  | IdInt n => (Some n, [])
  | IdStr raw =>
      match int_of_str raw with
      | Some n => (Some n, [])
      | None => (None, [WarnInvalidRequestId raw])
      end
  end.

(** Lines 393-395. *)
Definition confirm_oracle_ids (pubkey : Pubkey) (subscription_id : Z)
  (s : State) : State :=
  set_oracle_id_to_subscription
    (set_fold (λ oid m, <[oid := subscription_id]> m)
       (oracle_id_to_subscription s) (oracle_ids_of pubkey s)) s.

(** Lines 389-390 and 403-404. *)
Definition record_subscription (pubkey : Pubkey) (subscription_id : Z)
  (s : State) : State :=
  let s1 := set_subscription_map
              (<[subscription_id := pubkey]> (subscription_map s)) s in
  set_pubkey_to_subscription
    (<[pubkey := subscription_id]> (pubkey_to_subscription s1)) s1.

(** Lines 369-412. *)
Definition handle_confirmation (result : Z) (id : IdField) (s : State)
  : State * list Effect :=
  let '(request_id, e0) := parse_request_id id in
  let matched :=
    match request_id with
    | Some r => (λ e, (r, e)) <$> inflight_subscribes s !! r
    | None => None
    end in
  match matched with
  | Some (r, (pubkey, _)) =>
      let s1 := set_inflight_subscribes (delete r (inflight_subscribes s)) s in
      let s2 := record_subscription pubkey result s1 in
      (confirm_oracle_ids pubkey result s2, e0)
  | None =>
      match pending_subscriptions s with
      | pubkey :: rest =>
          let s1 := set_pending_subscriptions rest s in
          (record_subscription pubkey result s1, e0 ++ [WarnFallbackPop])
      | [] => (s, e0 ++ [WarnNoPending request_id result])
      end
  end.

(** Lines 437-446 and 450-460, for one key: decode and merge; a missing
    decoder or any exception leaves the state as it is. *)
Definition notify_key (slot_field : option Z) (account_bytes : bytes)
  (key : string) (s : State) : State :=
  match decode_map s !! key with
  | None => s
  | Some decode_fn =>
      match slot_field with
      | None => s
      | Some sl =>
          match decode_fn account_bytes with
          | None => s
          | Some decoded_data =>
              _update_data key (Some (mkDataAndSlot sl decoded_data)) s
          end
      end
  end.

(** Lines 414-460. *)
Definition handle_notification (subscription : option Z)
  (slot_field : option Z) (account_bytes : bytes) (s : State)
  : State * list Effect :=
  match subscription ≫= (λ sid, subscription_map s !! sid) with
  | None => (s, [WarnUnknownSubscription subscription])
  | Some pubkey =>
      let oracle_ids := oracle_ids_of pubkey s in
      if decide (oracle_ids ≠ ∅)
      then (set_fold (notify_key slot_field account_bytes) s oracle_ids, [])
      else (notify_key slot_field account_bytes (pubkey_str pubkey) s, [])
  end.

(** The keys a notification for [pubkey] is decoded for: the synthetic keys
    of the address when it has any (line 434), and otherwise the text of the
    address (line 449). *)
Definition notified_keys (pubkey : Pubkey) (s : State) : gset string :=
  if decide (oracle_ids_of pubkey s ≠ ∅)
  then oracle_ids_of pubkey s
  else {[pubkey_str pubkey]}.

(** One received message, lines 362-464. *)
Definition handle_frame (f : Frame) (s : State) : State * list Effect :=
  match f with
  | Confirmation result id => handle_confirmation result id s
  | Notification subscription slot_field account_bytes =>
      handle_notification subscription slot_field account_bytes s
  | OtherFrame => (s, [])
  end.

(** *** Resubscription on connect (lines 213-271) *)

(** [key.split('-')]: the text before the last dash and the text after it,
    [None] when the key has no dash. *)
Fixpoint rsplit_dash (key : string) : option (string * string) :=
  match key with
  | EmptyString => None
  | String c rest =>
      match rsplit_dash rest with
      | Some (pre, suf) => Some (String c pre, suf)
      | None => if Ascii.eqb c "-" then Some (EmptyString, rest) else None
      end
  end.

Definition is_ascii_digit (c : ascii) : bool :=
  let n := nat_of_ascii c in ((48 <=? n) && (n <=? 57))%nat.

Fixpoint all_digits (s : string) : bool :=
  match s with
  | EmptyString => true
  | String c rest => is_ascii_digit c && all_digits rest
  end.

(** [str.isdigit()], on ASCII text. *)
Definition isdigit (s : string) : bool :=
  match s with
  | EmptyString => false
  | _ => all_digits s
  end.

(** Lines 224-236: the address a cache key stands for; [None] is the
    [continue] after [Pubkey.from_string] raised. *)
Definition pubkey_of_key (key : string) : option Pubkey :=
  match rsplit_dash key with
  | Some (pre, suf) =>
      if isdigit suf then pubkey_from_string pre else pubkey_from_string key
  | None => pubkey_from_string key
  end.

(** Lines 220-241.  [keys] is [list(self.data_map.keys())]. *)
Definition initial_accounts (keys : list string) (s : State)
  : list (Pubkey * string) :=
  (foldl
     (λ (acc : list (Pubkey * string) * gset Pubkey) key,
        match pubkey_of_key key with
        | None => acc
        | Some pubkey =>
            if decide ((pubkey ∉ acc.2)
                       ∧ pubkey_to_subscription s !! pubkey = None)
            then (acc.1 ++ [(pubkey, key)], acc.2 ∪ {[pubkey]})
            else acc
        end)
     ([], ∅) keys).1.

(** Lines 244-271.  [send_ok] tells, for each request id, whether
    [raw_ws.send] returns. *)
Definition subscribe_initial (send_ok : Z → bool)
  (acc : State * list Effect) (account : Pubkey * string)
  : State * list Effect :=
  let '(pubkey, key) := account in
  let oracle_id :=
    if decide (key = pubkey_str pubkey) then None else Some key in
  let '(s1, e1) :=
    send_subscribe pubkey oracle_id
      (send_ok (request_id_counter acc.1 + 1)) acc.1 in
  (s1, acc.2 ++ e1).

(** The handshake succeeded (lines 210-271).  A [dict] keeps its keys in
    insertion order, which a [gmap] does not record: the keys are
    enumerated in the order of [map_to_list]. *)
Definition on_connected (send_ok : Z → bool) (s : State)
  : State * list Effect :=
  let s1 := set_ws true s in
  if running s1 then
    foldl (subscribe_initial send_ok) (s1, [])
      (initial_accounts (map_to_list (data_map s1)).*1 s1)
  else (s1, []).

(** *** Leaving the read loop *)

(** Lines 344-347: [recv] raised [ConnectionClosed]; the handler logs and
    [break]s out of the read loop, the [async with] block ends and the outer
    loop connects again.  No field is assigned on this path. *)
Definition on_recv_connection_closed (s : State) : State * list Effect :=
  (s, []).

(** Lines 470-474, 483-487 and 520-524. *)
Definition clear_connection (s : State) : State :=
  let s1 := set_ws false s in
  let s2 := set_subscription_map ∅ s1 in
  let s3 := set_pubkey_to_subscription ∅ s2 in
  set_inflight_subscribes ∅ s3.

(** Lines 468-475: [ConnectionClosed] reaching the handler of the read
    loop's [try]. *)
Definition on_loop_connection_closed (s : State) : State * list Effect :=
  (clear_connection s, []).

(** Lines 481-490: [ConnectionClosed] reaching the handler of the
    connection's [try]. *)
Definition on_connect_connection_closed (s : State) : State * list Effect :=
  (clear_connection s, []).

(** Lines 511-526: any other exception of a connection attempt. *)
Definition on_connect_error (s : State) : State * list Effect :=
  (clear_connection s, []).

(** Lines 491-510 and 527-546: the task is cancelled. *)
Definition on_cancelled (s : State) : State * list Effect :=
  let s1 := set_running false s in
  (clear_connection s1, if ws s1 then [CloseSocket] else []).

(** ** [get_data], [fetch], [subscribe], [unsubscribe] *)

(** The argument of [get_data]: [Union[Pubkey, str]]. *)
Inductive Key : Type :=
  | KeyPubkey (pubkey : Pubkey)
  | KeyStr (key : string).

(** Lines 556-571.  [list(oracle_ids)[0]] is the head of [elements]. *)
Definition get_data (key : Key) (s : State)
  : State * list Effect * option DataAndSlot :=
  match key with
  | KeyStr k => (s, [], cached k s)
  | KeyPubkey pubkey =>
      match elements (oracle_ids_of pubkey s) with
      | [] => (s, [], cached (pubkey_str pubkey) s)
      | [o] => (s, [], cached o s)
      | o :: _ => (s, [PrintMultipleOracleIds o], cached o s)
      end
  end.

(** Lines 574-582: [fetch] of one account.  The boolean is [true] when the
    exception of the snapshot fetch leaves the method. *)
Definition fetch_one (pubkey : Pubkey) (oracle_id : option string)
  (fetch : FetchOutcome) (s : State) : State * list Effect * bool :=
  let key := key_of pubkey oracle_id in
  match decode_map s !! key with
  | None => (s, [], false)
  | Some _ =>
      match fetch with
      | FetchReturns d => (_update_data key d s, [FetchSnapshot pubkey], false)
      | FetchRaises => (s, [FetchSnapshot pubkey], true)
      end
  end.

(** Lines 193-197 and 202. *)
Definition subscribe (s : State) : State :=
  if task s then s else set_running true (set_task true s).

(** How the reader task ends when [unsubscribe] awaits it (lines 637-642). *)
Inductive TaskResult : Type :=
  | TaskCancelled   (** its [CancelledError] handler ran *)
  | TaskTimedOut    (** [wait_for] timed out *)
  | TaskReturned    (** it had already returned *)
  | TaskRaised.     (** it had ended with another exception *)

(** Lines 662-673. *)
Definition clear_all (s : State) : State :=
  mkState (ws s) (task s) (running s) ∅ ∅ ∅ ∅ ∅ [] ∅ ∅ 0 ∅.

(** Lines 616-673.  The boolean is [true] when the exception of the reader
    task leaves the method at line 639. *)
Definition unsubscribe (t : TaskResult) (s : State)
  : State * list Effect * bool :=
  let s1 := set_running false s in
  let e1 := if task s1 then [CancelTask] else [] in
  let e2 := if ws s1 then [CloseSocket] else [] in
  let awaited : option (State * list Effect) :=
    if task s1 then
      match t with
      | TaskCancelled =>
          let '(s2, e) := on_cancelled s1 in Some (set_task false s2, e)
      | TaskTimedOut | TaskReturned => Some (set_task false s1, [])
      | TaskRaised => None
      end
    else Some (s1, []) in
  match awaited with
  | None => (s1, e1 ++ e2, true)
  | Some (s2, e3) =>
      let e4 :=
        if ws s2
        then (UnsubscribeFrame <$> (map_to_list (subscription_map s2)).*1)
               ++ [CloseSocket]
        else [] in
      (clear_all (set_ws false s2), e1 ++ e2 ++ e3 ++ e4, false)
  end.

(** ** Runs *)

(** What can happen to a subscriber: a method call by the application, or
    an event of the reader task. *)
Inductive Event : Type :=
  | EvAddAccount (pubkey : Pubkey) (decode : option Decoder)
      (initial_data : option DataAndSlot) (oracle_id : option string)
      (fetch : FetchOutcome) (send_ok : bool)
  | EvRemoveAccount (pubkey : Pubkey) (oracle_id : option string)
  | EvFetch (pubkey : Pubkey) (oracle_id : option string)
      (fetch : FetchOutcome)
  | EvGetData (key : Key)
  | EvSubscribe
  | EvConnected (send_ok : Z → bool)
  | EvFrame (f : Frame)
  | EvRecvConnectionClosed
  | EvLoopConnectionClosed
  | EvConnectConnectionClosed
  | EvConnectError
  | EvUnsubscribe (t : TaskResult).

Definition step (e : Event) (s : State) : State * list Effect :=
  match e with
  | EvAddAccount pubkey decode initial_data oracle_id fetch send_ok =>
      add_account pubkey decode initial_data oracle_id fetch send_ok s
  | EvRemoveAccount pubkey oracle_id => (remove_account pubkey oracle_id s).1
  | EvFetch pubkey oracle_id fetch => (fetch_one pubkey oracle_id fetch s).1
  | EvGetData key => (get_data key s).1
  | EvSubscribe => (subscribe s, [])
  | EvConnected send_ok => on_connected send_ok s
  | EvFrame f => handle_frame f s
  | EvRecvConnectionClosed => on_recv_connection_closed s
  | EvLoopConnectionClosed => on_loop_connection_closed s
  | EvConnectConnectionClosed => on_connect_connection_closed s
  | EvConnectError => on_connect_error s
  | EvUnsubscribe t => (unsubscribe t s).1
  end.

Fixpoint run (es : list Event) (s : State) : State * list Effect :=
  match es with
  | [] => (s, [])
  | e :: es' =>
      let '(s1, e1) := step e s in
      let '(s2, e2) := run es' s1 in
      (s2, e1 ++ e2)
  end.

Definition is_unsubscribe (e : Event) : bool :=
  match e with
  | EvUnsubscribe _ => true
  | _ => false
  end.

(** The request ids of the subscribe frames among the effects. *)
Definition subscribe_ids (effs : list Effect) : list Z :=
  omap (λ e, match e with
             | SubscribeFrame request_id _ => Some request_id
             | _ => None
             end) effs.

(** The ids of [l] increase strictly and lie in the interval [(lo, hi]]. *)
Definition ids_within (lo hi : Z) (l : list Z) : Prop :=
  StronglySorted Z.lt l ∧ Forall (λ i, lo < i ≤ hi) l.

(** Two states with the same request-id counter, the same pending list and
    the same requests in flight. *)
Definition same_correlator (s r : State) : Prop :=
  request_id_counter r = request_id_counter s
  ∧ pending_subscriptions r = pending_subscriptions s
  ∧ inflight_subscribes r = inflight_subscribes s.

(** What an operation that does not reset the counter does to the request
    ids, from state [s] to the result [r]: the counter does not decrease;
    the subscribe frames it sends carry strictly increasing ids, all larger
    than the old counter and at most the new one; an empty pending list
    stays empty; a request in flight afterwards was in flight before or
    carries one of the new ids. *)
Definition advances (s : State) (r : State * list Effect) : Prop :=
  request_id_counter s ≤ request_id_counter r.1
  ∧ ids_within (request_id_counter s) (request_id_counter r.1)
      (subscribe_ids r.2)
  ∧ (pending_subscriptions s = [] → pending_subscriptions r.1 = [])
  ∧ ∀ rid e, inflight_subscribes r.1 !! rid = Some e →
             inflight_subscribes s !! rid = Some e
             ∨ request_id_counter s < rid ≤ request_id_counter r.1.

(** The requests in flight carry ids above [c], and at most the counter. *)
Definition inflight_above (c : Z) (s : State) : Prop :=
  c ≤ request_id_counter s
  ∧ ∀ rid e, inflight_subscribes s !! rid = Some e →
             c < rid ≤ request_id_counter s.

(** ** Slot bookkeeping for [_update_data] *)

(** All updates of a list applied to one key, first to last. *)
Definition apply_updates (key : string) (updates : list (option DataAndSlot))
  (s : State) : State :=
  foldl (λ acc u, _update_data key u acc) s updates.

(** The largest slot of a non-empty list of slots. *)
Definition max_slot (x : DataAndSlot) (xs : list DataAndSlot) : Z :=
  foldl (λ m y, Z.max m (slot y)) (slot x) xs.

(** ** [fetch] of all accounts, [is_subscribed] *)

(** Lines 586-606: the keys of [decode_map] whose address can be read off
    the key, each with that address; the other keys are skipped. *)
Definition fetch_targets (s : State) : list (string * Pubkey) :=
  omap (λ kd : string * Decoder,
          (λ pubkey, (kd.1, pubkey)) <$> pubkey_of_key kd.1)
       (map_to_list (decode_map s)).

(** Lines 583-611: [fetch()] without argument.  [answers key] is the outcome
    of [get_account_data_and_slot] for the key ([gather] with
    [return_exceptions=True]); a raised outcome is skipped, the others are
    merged with [_update_data], in the order of the keys. *)
Definition fetch_all (answers : string → FetchOutcome) (s : State)
  : State * list Effect :=
  let targets := fetch_targets s in
  (foldl (λ acc (t : string * Pubkey),
            match answers t.1 with
            | FetchReturns d => _update_data t.1 d acc
            | FetchRaises => acc
            end) s targets,
   (λ t : string * Pubkey, FetchSnapshot t.2) <$> targets).

(** Lines 613-614. *)
Definition is_subscribed (s : State) : bool := ws s && task s.

(** ** Further bookkeeping for the properties *)

(** The subscribe frames among the effects, with the address they name. *)
Definition subscribe_frames (effs : list Effect) : list (Z * Pubkey) :=
  omap (λ e, match e with
             | SubscribeFrame request_id pubkey => Some (request_id, pubkey)
             | _ => None
             end) effs.

(** Every subscription id recorded for an address leads back to the
    address. *)
Definition subscriptions_consistent (s : State) : Prop :=
  ∀ pubkey sid,
    pubkey_to_subscription s !! pubkey = Some sid →
    subscription_map s !! sid = Some pubkey.

(** Two states with the same subscription maps. *)
Definition same_subscriptions (s r : State) : Prop :=
  subscription_map r = subscription_map s
  ∧ pubkey_to_subscription r = pubkey_to_subscription s.

(** The server does not hand out a subscription id that the subscriber
    still has on record. *)
Definition fresh_confirmation (e : Event) (s : State) : Prop :=
  match e with
  | EvFrame (Confirmation result _) => subscription_map s !! result = None
  | _ => True
  end.

Fixpoint fresh_run (es : list Event) (s : State) : Prop :=
  match es with
  | [] => True
  | e :: es' => fresh_confirmation e s ∧ fresh_run es' (step e s).1
  end.

(** The order of cached values by slot: nothing is below everything, a
    value is below the values with a slot at least as large. *)
Definition slot_le (a b : option DataAndSlot) : Prop :=
  match a, b with
  | None, _ => True
  | Some x, Some y => slot x ≤ slot y
  | Some _, None => False
  end.

(** The events that go through [_update_data] or leave the cache alone:
    all but [add_account], [remove_account] and [unsubscribe]. *)
Definition merges_only (e : Event) : bool :=
  match e with
  | EvAddAccount _ _ _ _ _ _ | EvRemoveAccount _ _ | EvUnsubscribe _ => false
  | _ => true
  end.

(** The requests in flight carry ids from 1 to the counter. *)
Definition inflight_bounded (s : State) : Prop :=
  0 ≤ request_id_counter s
  ∧ ∀ rid e, inflight_subscribes s !! rid = Some e →
             0 < rid ≤ request_id_counter s.

End Model.

(** ** A concrete environment for the executable examples

    Addresses are their own text, every text is an address, decoded records
    are byte strings, and [int] reads plain decimal numerals. *)

Definition digit_value (c : ascii) : Z := Z.of_nat (nat_of_ascii c) - 48.

Definition decimal (s : string) : option Z :=
  if isdigit s
  then Some (foldl (λ n c, 10 * n + digit_value c) 0 (list_ascii_of_string s))
  else None.

(** The identity decoder, and a decoder that always raises. *)
Definition decode_identity : list Byte.byte → option (list Byte.byte) := Some.

Definition decode_raises : list Byte.byte → option (list Byte.byte) :=
  λ _, None.

Definition text_externals : Externals :=
  {| Pubkey := string;
     pubkey_str := id;
     pubkey_from_string := Some;
     int_of_str := decimal;
     V := list Byte.byte;
     default_decode := decode_identity |}.

(** Concrete runs over this environment. *)
Module Scenario.

Definition E : Externals := text_externals.

Definition A : @Pubkey E := "A"%string.
Definition K1 : string := "A"%string.
Definition K2 : string := "A-1"%string.
Definition K3 : string := "A-2"%string.

(** The bytes of the texts [X] and [old]. *)
Definition payload : list Byte.byte := [Byte.x58].
Definition old_payload : list Byte.byte := [Byte.x6f; Byte.x6c; Byte.x64].

Definition old_value : @DataAndSlot E := @mkDataAndSlot E 1 old_payload.
Definition new_value : @DataAndSlot E := @mkDataAndSlot E 5 payload.

Definition always_sent : Z → bool := λ _, true.

(** Start, connect, add the address under its own text, receive the
    confirmation with subscription id 42. *)
Definition address_confirmed : list (@Event E) :=
  [ EvSubscribe;
    EvConnected always_sent;
    EvAddAccount A None (Some old_value) None FetchRaises true;
    EvFrame (Confirmation 42 (IdInt 1)) ].

(** Then add the synthetic key [K2] for the same address. *)
Definition address_and_synthetic : list (@Event E) :=
  address_confirmed
  ++ [ EvAddAccount A None (Some old_value) (Some K2) FetchRaises true ].

(** Start, connect, add the address under the synthetic key [K2] only,
    receive the confirmation. *)
Definition synthetic_confirmed : list (@Event E) :=
  [ EvSubscribe;
    EvConnected always_sent;
    EvAddAccount A None (Some old_value) (Some K2) FetchRaises true;
    EvFrame (Confirmation 42 (IdInt 1)) ].

(** Then add a second synthetic key [K3]. *)
Definition two_synthetic : list (@Event E) :=
  synthetic_confirmed
  ++ [ EvAddAccount A None (Some old_value) (Some K3) FetchRaises true ].

(** Start, connect, add two synthetic keys of one address before any
    confirmation arrives. *)
Definition two_adds_before_confirmation : list (@Event E) :=
  [ EvSubscribe;
    EvConnected always_sent;
    EvAddAccount A None (Some old_value) (Some K2) FetchRaises true;
    EvAddAccount A None (Some old_value) (Some K3) FetchRaises true ].

(** Start, connect, add the address: one request is in flight. *)
Definition one_in_flight : list (@Event E) :=
  [ EvSubscribe;
    EvConnected always_sent;
    EvAddAccount A None (Some old_value) None FetchRaises true ].

(** With the request in flight, [recv] raises [ConnectionClosed] and the
    task connects again. *)
Definition reconnected_after_recv_closed : list (@Event E) :=
  one_in_flight ++ [ EvRecvConnectionClosed; EvConnected always_sent ].

(** The address is confirmed under its own text; then [K2] is added with a
    decoder that raises and [K3] with the default decoder. *)
Definition one_decoder_raises : list (@Event E) :=
  address_confirmed
  ++ [ EvAddAccount A (Some decode_raises) (Some old_value) (Some K2)
         FetchRaises true;
       EvAddAccount A None (Some old_value) (Some K3) FetchRaises true ].

(** Updates of one key, in arrival order: slots 3, 5, 5, 4. *)
Definition slot3 : @DataAndSlot E := @mkDataAndSlot E 3 [Byte.x61].
Definition slot5 : @DataAndSlot E := @mkDataAndSlot E 5 [Byte.x62].
Definition slot5_again : @DataAndSlot E := @mkDataAndSlot E 5 [Byte.x63].
Definition slot4 : @DataAndSlot E := @mkDataAndSlot E 4 [Byte.x64].

Definition state_after (es : list (@Event E)) : @State E :=
  (run es init_state).1.

(** A second address. *)
Definition B : @Pubkey E := "B"%string.

(** Start and connect, with no feed yet. *)
Definition connected_idle : list (@Event E) :=
  [ EvSubscribe; EvConnected always_sent ].

(** Start the task, then add two synthetic keys of one address before any
    connection is established. *)
Definition added_before_connect : list (@Event E) :=
  [ EvSubscribe;
    EvAddAccount A None (Some old_value) (Some K2) FetchRaises true;
    EvAddAccount A None (Some old_value) (Some K3) FetchRaises true ].

(** Two addresses whose confirmations carry the same subscription id. *)
Definition same_id_twice : list (@Event E) :=
  [ EvSubscribe;
    EvConnected always_sent;
    EvAddAccount A None (Some old_value) None FetchRaises true;
    EvAddAccount B None (Some old_value) None FetchRaises true;
    EvFrame (Confirmation 5 (IdInt 1));
    EvFrame (Confirmation 5 (IdInt 2)) ].

(** Two pushes, the second with the older slot, then a closed connection. *)
Definition pushes_out_of_order : list (@Event E) :=
  [ EvFrame (Notification (Some 42) (Some 5) payload);
    EvFrame (Notification (Some 42) (Some 3) old_payload);
    EvRecvConnectionClosed ].

(** The snapshot arrives for the key [K1] and the request raises for every
    other key. *)
Definition only_address_answers : string → @FetchOutcome E :=
  λ k, if String.eqb k K1 then FetchReturns (Some new_value) else FetchRaises.

(** The numeral of the request id 1. *)
Definition numeral_one : string := "1"%string.

End Scenario.

(** ** Properties *)

Section Properties.
Context `{Externals}.

(** *** Reading the cache after a write *)

Lemma cached_set_data_map_eq (key : string) (v : option DataAndSlot)
  (s : State) :
  cached key (set_data_map (<[key := v]> (data_map s)) s) = v.
Proof. unfold cached; simpl. by rewrite lookup_insert_eq. Qed.

Lemma cached_set_data_map_ne (key k : string) (v : option DataAndSlot)
  (s : State) :
  key ≠ k → cached k (set_data_map (<[key := v]> (data_map s)) s) = cached k s.
Proof. intros Hne. unfold cached; simpl. by rewrite lookup_insert_ne. Qed.

Lemma update_data_replaces (key : string) (nd : DataAndSlot) (s : State) :
  cached key s = None ∨ (∃ cur, cached key s = Some cur ∧ slot cur ≤ slot nd) →
  _update_data key (Some nd) s
  = set_data_map (<[key := Some nd]> (data_map s)) s.
Proof.
  intros [Hnone | (cur & Hcur & Hle)]; unfold _update_data.
  - by rewrite Hnone.
  - rewrite Hcur. destruct (Z.geb_spec (slot nd) (slot cur)); [done | lia].
Qed.

Lemma update_data_keeps (key : string) (nd cur : DataAndSlot) (s : State) :
  cached key s = Some cur → slot nd < slot cur →
  _update_data key (Some nd) s = s.
Proof.
  intros Hcur Hlt. unfold _update_data. rewrite Hcur.
  destruct (Z.geb_spec (slot nd) (slot cur)); [lia | done].
Qed.

Lemma apply_updates_snoc (key : string) (us : list (option DataAndSlot))
  (u : option DataAndSlot) (s : State) :
  apply_updates key (us ++ [u]) s = _update_data key u (apply_updates key us s).
Proof. unfold apply_updates. by rewrite foldl_app. Qed.

Lemma max_slot_snoc (c : DataAndSlot) (us : list DataAndSlot)
  (x : DataAndSlot) :
  max_slot c (us ++ [x]) = Z.max (max_slot c us) (slot x).
Proof. unfold max_slot. by rewrite foldl_app. Qed.

(** Starting from a cached value [c], the cache ends with the last element
    of [c :: us] that carries the largest slot. *)
Lemma apply_updates_last_max (key : string) (us : list DataAndSlot) :
  ∀ (c : DataAndSlot) (s : State),
    cached key s = Some c →
    ∃ l1 w l2,
      c :: us = l1 ++ w :: l2
      ∧ cached key (apply_updates key (Some <$> us) s) = Some w
      ∧ slot w = max_slot c us
      ∧ Forall (λ y, slot y ≤ slot w) l1
      ∧ Forall (λ y, slot y < slot w) l2.
Proof.
  induction us as [| x us IH] using rev_ind; intros c s Hc.
  - exists [], c, []. repeat split; auto.
  - destruct (IH c s Hc) as (l1 & w & l2 & Hdec & Hw & Hmax & Hl1 & Hl2).
    rewrite fmap_app. change (Some <$> [x]) with [Some x].
    rewrite apply_updates_snoc, max_slot_snoc.
    destruct (Z_lt_le_dec (slot x) (slot w)) as [Hlt | Hge].
    + exists l1, w, (l2 ++ [x]). rewrite (update_data_keeps _ _ w) by done.
      repeat split; auto.
      * by rewrite app_comm_cons, Hdec, <- app_assoc.
      * lia.
      * apply Forall_app; split; [done | by constructor].
    + exists (c :: us), x, []. rewrite update_data_replaces by eauto.
      rewrite cached_set_data_map_eq.
      repeat split; auto.
      * lia.
      * rewrite Hdec. apply Forall_app; split.
        -- eapply Forall_impl; [exact Hl1 | simpl; intros; lia].
        -- constructor; [lia |].
           eapply Forall_impl; [exact Hl2 | simpl; intros; lia].
Qed.

(** C1.  [_update_data] with [None] changes nothing.  With a value it
    writes the value under the key when nothing is cached there or when the
    new slot is at least the cached one (a tie is won by the new value), and
    changes nothing when the new slot is smaller.  Hence, when a key with
    nothing cached receives the updates [u :: us] one after the other, in
    whatever order they come, the cache ends with the largest of their
    slots, and its value is the last update of the list that carries this
    slot: everything before it has a slot at most as large, everything after
    it a strictly smaller one. *)
Theorem update_data_slot_monotonic (key : string) (s : State) :
  _update_data key None s = s
  ∧ (∀ nd : DataAndSlot,
       cached key s = None
       ∨ (∃ cur, cached key s = Some cur ∧ slot cur ≤ slot nd) →
       _update_data key (Some nd) s
       = set_data_map (<[key := Some nd]> (data_map s)) s)
  ∧ (∀ nd cur : DataAndSlot,
       cached key s = Some cur → slot nd < slot cur →
       _update_data key (Some nd) s = s)
  ∧ (∀ (u : DataAndSlot) (us : list DataAndSlot),
       cached key s = None →
       ∃ l1 w l2,
         u :: us = l1 ++ w :: l2
         ∧ cached key (apply_updates key (Some <$> u :: us) s) = Some w
         ∧ slot w = max_slot u us
         ∧ Forall (λ y, slot y ≤ slot w) l1
         ∧ Forall (λ y, slot y < slot w) l2).
Proof.
  split; [done |].
  split; [intros nd; apply update_data_replaces |].
  split; [intros nd cur; apply update_data_keeps |].
  intros u us Hnone.
  assert (Hfirst : cached key (_update_data key (Some u) s) = Some u).
  { rewrite update_data_replaces by auto. apply cached_set_data_map_eq. }
  destruct (apply_updates_last_max key us u _ Hfirst)
    as (l1 & w & l2 & ? & ? & ? & ? & ?).
  by exists l1, w, l2.
Qed.

(** *** Notifications *)

Lemma decide_union_other {A : Type} (k x : string) (Y : gset string)
  (d1 : Decision (k ∈ {[x]} ∪ Y)) (d2 : Decision (k ∈ Y)) (a b : A) :
  k ≠ x →
  (if @decide _ d1 then a else b) = (if @decide _ d2 then a else b).
Proof.
  intros Hne. unfold decide. destruct d1 as [Hin' | Hin'], d2 as [Hin | Hin];
    try done; exfalso.
  - apply elem_of_union in Hin' as [Hx%elem_of_singleton | HY]; done.
  - apply Hin', elem_of_union. by right.
Qed.

Lemma decide_union_self {A : Type} (x : string) (Y : gset string)
  (d : Decision (x ∈ {[x]} ∪ Y)) (a b : A) :
  (if @decide _ d then a else b) = a.
Proof.
  unfold decide. destruct d as [_ | Hn]; [done |].
  exfalso. apply Hn, elem_of_union. left. by apply elem_of_singleton.
Qed.

Lemma decide_empty {A : Type} (k : string)
  (d : Decision (k ∈ (∅ : gset string))) (a b : A) :
  (if @decide _ d then a else b) = b.
Proof.
  unfold decide. destruct d as [Hin | _]; [| done].
  by apply not_elem_of_empty in Hin.
Qed.

Lemma set_data_map_frame (r s : State) (m : gmap string (option DataAndSlot)) :
  r = set_data_map (data_map r) s → set_data_map m r = set_data_map m s.
Proof. intros Hr. by rewrite Hr. Qed.

(** [notify_key] either leaves the state alone or writes one value under
    its key, and the choice depends only on the key's decoder and on what
    is cached under the key. *)
Lemma notify_key_shape (sf : option Z) (b : bytes) (k : string) (s : State) :
  ∃ o : option DataAndSlot,
    ∀ r : State,
      decode_map r = decode_map s → cached k r = cached k s →
      notify_key sf b k r
      = match o with
        | Some nd => set_data_map (<[k := Some nd]> (data_map r)) r
        | None => r
        end.
Proof.
  unfold notify_key.
  destruct (decode_map s !! k) as [dec |] eqn:Hdec;
    [| exists None; intros r Hr _; by rewrite Hr, Hdec].
  destruct sf as [sl |]; [| exists None; intros r Hr _; by rewrite Hr, Hdec].
  destruct (dec b) as [v |] eqn:Hv;
    [| exists None; intros r Hr _; by rewrite Hr, Hdec, Hv].
  unfold _update_data.
  destruct (cached k s) as [cur |] eqn:Hcur.
  - destruct (slot (mkDataAndSlot sl v) >=? slot cur) eqn:Hge.
    + exists (Some (mkDataAndSlot sl v)). intros r Hr Hc.
      by rewrite Hr, Hdec, Hv, Hc, Hge.
    + exists None. intros r Hr Hc. by rewrite Hr, Hdec, Hv, Hc, Hge.
  - exists (Some (mkDataAndSlot sl v)). intros r Hr Hc.
    by rewrite Hr, Hdec, Hv, Hc.
Qed.

Lemma notify_key_frame (sf : option Z) (b : bytes) (k : string) (s : State) :
  notify_key sf b k s = set_data_map (data_map (notify_key sf b k s)) s
  ∧ ∀ k', k' ≠ k → data_map (notify_key sf b k s) !! k' = data_map s !! k'.
Proof.
  destruct (notify_key_shape sf b k s) as [o Ho].
  rewrite (Ho s) by done. destruct o as [nd |]; simpl.
  - split; [done |]. intros k' Hne. by rewrite lookup_insert_ne.
  - split; [by destruct s | done].
Qed.

(** The loop of lines 436-446 over a set of keys: each key of the set is
    treated as if it were alone, whatever the order of the iteration. *)
Lemma notify_fold (sf : option Z) (b : bytes) (s : State) (X : gset string) :
  set_fold (notify_key sf b) s X
  = set_data_map (data_map (set_fold (notify_key sf b) s X)) s
  ∧ ∀ k, data_map (set_fold (notify_key sf b) s X) !! k
         = if decide (k ∈ X) then data_map (notify_key sf b k s) !! k
           else data_map s !! k.
Proof.
  pose (P := λ (r : State) (Y : gset string),
       r = set_data_map (data_map r) s
       ∧ ∀ k, data_map r !! k
              = if decide (k ∈ Y) then data_map (notify_key sf b k s) !! k
                else data_map s !! k).
  change (P (set_fold (notify_key sf b) s X) X).
  apply set_fold_ind_L; unfold P; clear P; cbv beta.
  - split; [by destruct s |]. intros k. by rewrite decide_empty.
  - intros x Y r Hx [Hr Hk].
    assert (Hdec : decode_map r = decode_map s) by (by rewrite Hr).
    assert (Hcur : cached x r = cached x s).
    { unfold cached. rewrite Hk. by destruct (decide (x ∈ Y)). }
    destruct (notify_key_shape sf b x s) as [o Ho].
    rewrite (Ho r Hdec Hcur).
    pose proof (Ho s eq_refl eq_refl) as Hs.
    split.
    + destruct o as [nd |]; [| done]. simpl. by apply set_data_map_frame.
    + intros k. destruct (decide (k = x)) as [-> | Hne].
      * rewrite decide_union_self.
        rewrite Hs. destruct o; simpl.
        -- by rewrite !lookup_insert_eq.
        -- rewrite Hk. by destruct (decide (x ∈ Y)).
      * assert (data_map
                  match o with
                  | Some nd => set_data_map (<[x:=Some nd]> (data_map r)) r
                  | None => r
                  end !! k = data_map r !! k) as ->.
        { destruct o; simpl; [by rewrite lookup_insert_ne | done]. }
        rewrite Hk. symmetry. by apply decide_union_other.
Qed.

(** C2 (amended).  A notification whose subscription id is mapped to the
    address [pubkey] is decoded for the synthetic keys of [pubkey] when it
    has any, and for the text of [pubkey] otherwise.  Only [data_map]
    changes.  Each such key is decoded with its own decoder and merged with
    [_update_data]; a key whose decoder raises keeps its cached value; the
    other keys of the address are merged all the same; keys outside the set
    are not touched. *)
Theorem notification_fan_out (sid : Z) (pubkey : Pubkey)
  (slot_field : option Z) (account_bytes : bytes) (s : State) :
  subscription_map s !! sid = Some pubkey →
  let s' := (handle_frame
               (Notification (Some sid) slot_field account_bytes) s).1 in
  s' = set_data_map (data_map s') s
  ∧ (∀ k decode_fn sl decoded,
       k ∈ notified_keys pubkey s →
       decode_map s !! k = Some decode_fn →
       slot_field = Some sl →
       decode_fn account_bytes = Some decoded →
       data_map s' !! k
       = data_map (_update_data k (Some (mkDataAndSlot sl decoded)) s) !! k)
  ∧ (∀ k decode_fn,
       decode_map s !! k = Some decode_fn →
       decode_fn account_bytes = None →
       data_map s' !! k = data_map s !! k)
  ∧ (∀ k, k ∉ notified_keys pubkey s → data_map s' !! k = data_map s !! k).
Proof.
  intros Hsid. simpl. unfold handle_notification, notified_keys. simpl.
  rewrite Hsid.
  assert (Hfail : ∀ k decode_fn,
             decode_map s !! k = Some decode_fn →
             decode_fn account_bytes = None →
             notify_key slot_field account_bytes k s = s).
  { intros k dec Hd Hn. unfold notify_key. rewrite Hd, Hn.
    by destruct slot_field. }
  assert (Hok : ∀ k decode_fn sl decoded,
             decode_map s !! k = Some decode_fn →
             slot_field = Some sl →
             decode_fn account_bytes = Some decoded →
             notify_key slot_field account_bytes k s
             = _update_data k (Some (mkDataAndSlot sl decoded)) s).
  { intros k dec sl v Hd -> Hv. unfold notify_key. by rewrite Hd, Hv. }
  destruct (decide (oracle_ids_of pubkey s ≠ ∅)) as [Hne | He]; simpl.
  - destruct (notify_fold slot_field account_bytes s (oracle_ids_of pubkey s))
      as [Hframe Hk].
    split; [exact Hframe |]. repeat split.
    + intros k dec sl v Hin Hd Hsl Hv. rewrite Hk.
      destruct (decide (k ∈ oracle_ids_of pubkey s)); [| done].
      by rewrite (Hok k dec sl v).
    + intros k dec Hd Hn. rewrite Hk.
      destruct (decide (k ∈ oracle_ids_of pubkey s)); [| done].
      by rewrite (Hfail k dec).
    + intros k Hnotin. rewrite Hk.
      by destruct (decide (k ∈ oracle_ids_of pubkey s)).
  - destruct (notify_key_frame slot_field account_bytes (pubkey_str pubkey) s)
      as [Hframe Hother].
    split; [exact Hframe |]. repeat split.
    + intros k dec sl v Hin Hd Hsl Hv.
      apply elem_of_singleton in Hin as ->. by rewrite (Hok _ dec sl v).
    + intros k dec Hd Hn.
      destruct (decide (k = pubkey_str pubkey)) as [-> | Hne'];
        [by rewrite (Hfail _ dec) | by apply Hother].
    + intros k Hnotin. apply Hother. intros ->.
      by apply Hnotin, elem_of_singleton.
Qed.

(** *** Removing feeds *)

(** The loop of lines 160-166: every key of the set loses its decoder, its
    cached value and its subscription-id entry; nothing else changes. *)
Lemma forget_fold (s : State) (X : gset string) :
  ∀ k,
    data_map (set_fold forget_oracle_id s X) !! k
    = (if decide (k ∈ X) then None else data_map s !! k)
    ∧ decode_map (set_fold forget_oracle_id s X) !! k
      = (if decide (k ∈ X) then None else decode_map s !! k)
    ∧ oracle_id_to_subscription (set_fold forget_oracle_id s X) !! k
      = (if decide (k ∈ X) then None else oracle_id_to_subscription s !! k).
Proof.
  pose (P := λ (r : State) (Y : gset string),
    ∀ k,
      data_map r !! k = (if decide (k ∈ Y) then None else data_map s !! k)
      ∧ decode_map r !! k
        = (if decide (k ∈ Y) then None else decode_map s !! k)
      ∧ oracle_id_to_subscription r !! k
        = (if decide (k ∈ Y) then None
           else oracle_id_to_subscription s !! k)).
  change (P (set_fold forget_oracle_id s X) X).
  apply set_fold_ind_L; unfold P; clear P; cbv beta.
  - intros k. by rewrite !decide_empty.
  - intros x Y r Hx Hr k. destruct (Hr k) as (Hd & Hc & Ho). simpl.
    destruct (decide (k = x)) as [-> | Hne].
    + by rewrite !lookup_delete_eq, !decide_union_self.
    + rewrite !lookup_delete_ne by done. rewrite Hd, Hc, Ho.
      by rewrite !(decide_union_other k x Y _ _ _ _ Hne).
Qed.

Lemma forget_fold_frame (s : State) (X : gset string) :
  ws (set_fold forget_oracle_id s X) = ws s
  ∧ subscription_map (set_fold forget_oracle_id s X) = subscription_map s
  ∧ pubkey_to_subscription (set_fold forget_oracle_id s X)
    = pubkey_to_subscription s
  ∧ pubkey_to_oracle_ids (set_fold forget_oracle_id s X)
    = pubkey_to_oracle_ids s
  ∧ initial_data_map (set_fold forget_oracle_id s X) = initial_data_map s.
Proof.
  pose (P := λ (r : State) (Y : gset string),
    ws r = ws s
    ∧ subscription_map r = subscription_map s
    ∧ pubkey_to_subscription r = pubkey_to_subscription s
    ∧ pubkey_to_oracle_ids r = pubkey_to_oracle_ids s
    ∧ initial_data_map r = initial_data_map s).
  change (P (set_fold forget_oracle_id s X) X).
  apply set_fold_ind_L; unfold P; clear P; cbv beta; [done |].
  intros x Y r _ Hr. exact Hr.
Qed.

(** C3 (amended).  [remove_account] with a synthetic key [K2] of an address
    that keeps another synthetic key afterwards deletes only the decoder,
    the cached value and the subscription-id entry of [K2]: every other
    key, and the wire subscription of the address, are as before and no
    frame is sent.  When no synthetic key is left after [K2] is discarded,
    or when no key is given, and the address has a wire subscription, the
    unsubscribe frame is sent (if the socket is there) and the state of the
    address is purged: its subscription entries, the decoder and cached
    value stored under the text of the address, and the decoder, cached
    value and subscription-id entry of each of its synthetic keys. *)
Theorem remove_account_partial_and_full (pubkey : Pubkey) (s : State) :
  (∀ (K2 : string) (ids : gset string),
     pubkey_to_oracle_ids s !! pubkey = Some ids →
     ids ∖ {[K2]} ≠ ∅ →
     let r := remove_account pubkey (Some K2) s in
     r.1.2 = [] ∧ r.2 = false
     ∧ subscription_map r.1.1 = subscription_map s
     ∧ pubkey_to_subscription r.1.1 = pubkey_to_subscription s
     ∧ decode_map r.1.1 = delete K2 (decode_map s)
     ∧ data_map r.1.1 = delete K2 (data_map s)
     ∧ oracle_id_to_subscription r.1.1
       = delete K2 (oracle_id_to_subscription s)
     ∧ pubkey_to_oracle_ids r.1.1
       = <[pubkey := ids ∖ {[K2]}]> (pubkey_to_oracle_ids s))
  ∧ (∀ (oracle_id : option string) (sid : Z),
       match oracle_id with
       | Some K2 => oracle_ids_of pubkey s ∖ {[K2]} = ∅
       | None => True
       end →
       pubkey_to_subscription s !! pubkey = Some sid →
       is_Some (subscription_map s !! sid) →
       let r := remove_account pubkey oracle_id s in
       r.1.2 = (if ws s then [UnsubscribeFrame sid] else []) ∧ r.2 = false
       ∧ pubkey_to_subscription r.1.1 !! pubkey = None
       ∧ subscription_map r.1.1 !! sid = None
       ∧ decode_map r.1.1 !! pubkey_str pubkey = None
       ∧ data_map r.1.1 !! pubkey_str pubkey = None
       ∧ initial_data_map r.1.1 !! pubkey_str pubkey = None
       ∧ oracle_ids_of pubkey r.1.1 = ∅
       ∧ ∀ k, k ∈ oracle_ids_of pubkey s →
              decode_map r.1.1 !! k = None
              ∧ data_map r.1.1 !! k = None
              ∧ oracle_id_to_subscription r.1.1 !! k = None).
Proof.
  split.
  - intros K2 ids Hids Hne. unfold remove_account, remove_account_keys.
    rewrite Hids. simpl. rewrite lookup_insert_eq.
    rewrite bool_decide_eq_true_2 by done. simpl. done.
  - intros oracle_id sid Hlast Hsid [pk' Hsub].
    unfold remove_account, remove_account_keys, oracle_ids_of in *.
    destruct oracle_id as [K2 |].
    + destruct (pubkey_to_oracle_ids s !! pubkey) as [ids |] eqn:Hids;
        simpl in *.
      * rewrite lookup_insert_eq, Hlast.
        rewrite bool_decide_eq_false_2 by (by intros Hn; apply Hn).
        simpl. rewrite Hsid, Hsub. simpl.
        rewrite !lookup_delete_eq, lookup_insert_eq. simpl.
        split_and!; try done. intros k Hin.
        assert (k = K2) as ->.
        { destruct (decide (k = K2)) as [-> | Hk]; [done |].
          exfalso. eapply (not_elem_of_empty (C:=gset string) k).
          rewrite <- Hlast. apply elem_of_difference. split; [done |].
          by rewrite elem_of_singleton. }
        split_and!.
        -- destruct (decide (pubkey_str pubkey = K2)) as [-> | Hk];
             [by rewrite lookup_delete_eq |
              by rewrite lookup_delete_ne, lookup_delete_eq].
        -- destruct (decide (pubkey_str pubkey = K2)) as [-> | Hk];
             [by rewrite lookup_delete_eq |
              by rewrite lookup_delete_ne, lookup_delete_eq].
        -- by rewrite lookup_delete_eq.
      * rewrite Hids. simpl. rewrite Hsid, Hsub. simpl.
        rewrite !lookup_delete_eq, Hids. simpl.
        split_and!; done.
    + destruct (pubkey_to_oracle_ids s !! pubkey) as [ids |] eqn:Hids;
        simpl in *.
      * destruct (forget_fold_frame s ids) as (Hws & Hsm & Hpts & Hp2o & Hini).
        rewrite Hpts, Hsid, Hsm, Hsub, Hws. simpl.
        rewrite !lookup_delete_eq. simpl.
        split_and!; try done. intros k Hin.
        destruct (forget_fold s ids k) as (Hd & Hc & Ho).
        split_and!.
        -- destruct (decide (pubkey_str pubkey = k)) as [-> | Hk];
             [by rewrite lookup_delete_eq | rewrite lookup_delete_ne by done].
           rewrite Hc. by destruct (decide (k ∈ ids)).
        -- destruct (decide (pubkey_str pubkey = k)) as [-> | Hk];
             [by rewrite lookup_delete_eq | rewrite lookup_delete_ne by done].
           rewrite Hd. by destruct (decide (k ∈ ids)).
        -- rewrite Ho. by destruct (decide (k ∈ ids)).
      * rewrite Hsid, Hsub. simpl. rewrite !lookup_delete_eq, Hids. simpl.
        split_and!; done.
Qed.

(** *** Adding feeds *)

(** C4 (amended).  [add_account] for an address that already has an
    underlying subscription sends no frame, takes no request id and creates
    no in-flight request, and leaves both subscription maps as they are.
    When a synthetic key is given, the call stores the key's decoder (and
    its initial value, if one is passed), adds the key to the keys of the
    address and maps it to the existing subscription id.  When no synthetic
    key is given, the call changes nothing. *)
Theorem add_account_already_subscribed (pubkey : Pubkey)
  (decode : option Decoder) (initial_data : option DataAndSlot)
  (oracle_id : option string) (fetch : FetchOutcome) (send_ok : bool)
  (s : State) (sid : Z) :
  pubkey_to_subscription s !! pubkey = Some sid →
  let r := add_account pubkey decode initial_data oracle_id fetch send_ok s in
  r.2 = []
  ∧ inflight_subscribes r.1 = inflight_subscribes s
  ∧ request_id_counter r.1 = request_id_counter s
  ∧ subscription_map r.1 = subscription_map s
  ∧ pubkey_to_subscription r.1 = pubkey_to_subscription s
  ∧ match oracle_id with
    | Some o =>
        decode_map r.1 = <[o := decode_or_default decode]> (decode_map s)
        ∧ data_map r.1
          = match initial_data with
            | Some d => <[o := Some d]> (data_map s)
            | None => data_map s
            end
        ∧ oracle_id_to_subscription r.1
          = <[o := sid]> (oracle_id_to_subscription s)
        ∧ pubkey_to_oracle_ids r.1
          = <[pubkey := oracle_ids_of pubkey s ∪ {[o]}]>
              (pubkey_to_oracle_ids s)
    | None => r.1 = s
    end.
Proof.
  intros Hsid. unfold add_account, add_account_register. rewrite Hsid.
  destruct oracle_id as [o |]; simpl; [| done].
  by destruct initial_data.
Qed.

(** C5 (amended).  [add_account] without an initial value, for an address
    without underlying subscription and a key with nothing cached, when the
    snapshot fetch raises: the error is printed and the call returns; no
    value is cached, no frame is sent, no request id is taken and nothing
    is put in flight; but the decoder stored under the key stays, and so
    does a synthetic key among the keys of the address. *)
Theorem add_account_fetch_failure (pubkey : Pubkey)
  (decode : option Decoder) (oracle_id : option string) (send_ok : bool)
  (s : State) :
  pubkey_to_subscription s !! pubkey = None →
  cached (key_of pubkey oracle_id) s = None →
  let r := add_account pubkey decode None oracle_id FetchRaises send_ok s in
  r.2 = [FetchSnapshot pubkey; PrintFetchError pubkey]
  ∧ decode_map r.1
    = <[key_of pubkey oracle_id := decode_or_default decode]> (decode_map s)
  ∧ data_map r.1 = data_map s
  ∧ inflight_subscribes r.1 = inflight_subscribes s
  ∧ request_id_counter r.1 = request_id_counter s
  ∧ subscription_map r.1 = subscription_map s
  ∧ pubkey_to_subscription r.1 = pubkey_to_subscription s
  ∧ pubkey_to_oracle_ids r.1
    = match oracle_id with
      | Some o =>
          <[pubkey := oracle_ids_of pubkey s ∪ {[o]}]> (pubkey_to_oracle_ids s)
      | None => pubkey_to_oracle_ids s
      end.
Proof.
  intros Hsid Hcached. unfold add_account, add_account_register.
  rewrite Hsid. simpl.
  replace (cached (key_of pubkey oracle_id)
             (set_decode_map
                (<[key_of pubkey oracle_id := decode_or_default decode]>
                   (decode_map s)) s)) with (@None DataAndSlot)
    by (symmetry; exact Hcached).
  simpl. by destruct oracle_id.
Qed.

(** *** Stopping *)

Lemma unsubscribe_init_state (t : TaskResult) :
  unsubscribe t init_state = (init_state, [], false).
Proof. reflexivity. Qed.

(** C9.  [unsubscribe] returns unless the reader task had ended with an
    exception of its own; in particular it returns for a subscriber that
    has no task.  When it returns, the subscriber is in the state [__init__]
    builds: no socket, no task, not running, every map and the pending list
    empty, the request-id counter zero.  A further [unsubscribe] then
    returns as well, has no effect on the outside and leaves this state. *)
Theorem unsubscribe_complete_idempotent (t : TaskResult) (s : State) :
  (task s = false ∨ t ≠ TaskRaised → (unsubscribe t s).2 = false)
  ∧ ((unsubscribe t s).2 = false →
       (unsubscribe t s).1.1 = init_state
       ∧ ∀ t', unsubscribe t' (unsubscribe t s).1.1
               = ((unsubscribe t s).1.1, [], false)).
Proof.
  split.
  - unfold unsubscribe. simpl.
    intros [Ht | Ht]; [rewrite Ht; reflexivity |].
    destruct (task s); [| reflexivity]. by destruct t.
  - intros Hret.
    assert (Hstate : (unsubscribe t s).1.1 = init_state).
    { revert Hret. unfold unsubscribe, clear_all, init_state. simpl.
      destruct (task s) eqn:Htask; simpl; rewrite ?Htask; [| done].
      by destruct t. }
    split; [exact Hstate |]. intros t'. rewrite Hstate.
    apply unsubscribe_init_state.
Qed.

(** *** Reading *)

(** C10.  [get_data] with an address that has no synthetic key returns
    what is cached under the text of the address; with an address that has
    exactly one synthetic key it returns what is cached under that key; with
    a text key it returns what is cached under exactly this key, which is
    nothing when the key is absent.  It never changes the state. *)
Theorem get_data_reads_cache (s : State) :
  (∀ pubkey, oracle_ids_of pubkey s = ∅ →
     get_data (KeyPubkey pubkey) s = (s, [], cached (pubkey_str pubkey) s))
  ∧ (∀ pubkey o, oracle_ids_of pubkey s = {[o]} →
       get_data (KeyPubkey pubkey) s = (s, [], cached o s))
  ∧ (∀ k, get_data (KeyStr k) s = (s, [], cached k s))
  ∧ (∀ k v, data_map s !! k = Some v → cached k s = v)
  ∧ (∀ k, data_map s !! k = None → cached k s = None)
  ∧ (∀ key, (get_data key s).1.1 = s).
Proof.
  split_and!.
  - intros pubkey He. unfold get_data. by rewrite He, elements_empty.
  - intros pubkey o Ho. unfold get_data. by rewrite Ho, elements_singleton.
  - done.
  - intros k v Hk. unfold cached. by rewrite Hk.
  - intros k Hk. unfold cached. by rewrite Hk.
  - intros [pubkey | k]; [| done]. unfold get_data.
    destruct (elements (oracle_ids_of pubkey s)) as [| o [| o' l]]; done.
Qed.

(** *** Request ids *)

Lemma ids_within_nil (lo hi : Z) : ids_within lo hi [].
Proof. split; constructor. Qed.

Lemma ids_within_app (a b c : Z) (l1 l2 : list Z) :
  a ≤ b → b ≤ c →
  ids_within a b l1 → ids_within b c l2 → ids_within a c (l1 ++ l2).
Proof.
  intros Hab Hbc [Hs1 Hf1] [Hs2 Hf2]. split.
  - apply StronglySorted_app_2; [| done | done].
    intros x1 x2 Hx1 Hx2.
    rewrite Forall_forall in Hf1, Hf2.
    specialize (Hf1 x1 Hx1). specialize (Hf2 x2 Hx2). lia.
  - apply Forall_app. split.
    + eapply Forall_impl; [exact Hf1 | simpl; intros; lia].
    + eapply Forall_impl; [exact Hf2 | simpl; intros; lia].
Qed.

Lemma ids_within_widen (a b c : Z) (l : list Z) :
  b ≤ c → ids_within a b l → ids_within a c l.
Proof.
  intros Hbc [Hs Hf]. split; [done |].
  eapply Forall_impl; [exact Hf | simpl; intros; lia].
Qed.

Lemma advances_same (s r : State) (effs : list Effect) :
  same_correlator s r → subscribe_ids effs = [] → advances s (r, effs).
Proof.
  intros (Hc & Hp & Hi) He. unfold advances. simpl. rewrite Hc, Hp, Hi, He.
  split_and!; [lia | apply ids_within_nil | done | by left].
Qed.

Lemma advances_trans (s : State) (r1 r2 : State * list Effect) :
  advances s r1 → advances r1.1 r2 → advances s (r2.1, r1.2 ++ r2.2).
Proof.
  intros (Hc1 & Hw1 & Hp1 & Hi1) (Hc2 & Hw2 & Hp2 & Hi2).
  unfold advances. simpl. split_and!.
  - lia.
  - unfold subscribe_ids. rewrite omap_app.
    by apply (ids_within_app _ (request_id_counter r1.1)).
  - auto.
  - intros rid e Hin. destruct (Hi2 rid e Hin) as [Hold | Hnew].
    + destruct (Hi1 rid e Hold) as [? | ?]; [by left | right; lia].
    + right. lia.
Qed.

Lemma same_correlator_refl (s : State) : same_correlator s s.
Proof. done. Qed.

Lemma same_correlator_trans (s r t : State) :
  same_correlator s r → same_correlator r t → same_correlator s t.
Proof.
  intros (? & ? & ?) (? & ? & ?). unfold same_correlator.
  split_and!; congruence.
Qed.

(** Taking a request id: the counter grows by one, the frame carries the
    new value, and the only request that may be new in flight has it. *)
Lemma send_subscribe_advances (pubkey : Pubkey) (oracle_id : option string)
  (send_ok : bool) (s : State) :
  advances s (send_subscribe pubkey oracle_id send_ok s)
  ∧ request_id_counter (send_subscribe pubkey oracle_id send_ok s).1
    = request_id_counter s + 1
  ∧ subscribe_ids (send_subscribe pubkey oracle_id send_ok s).2
    = [request_id_counter s + 1].
Proof.
  unfold send_subscribe, advances.
  destruct send_ok; simpl; (split; [| done]); split_and!; try done; try lia.
  - split; repeat constructor; lia.
  - intros rid e. destruct (decide (rid = request_id_counter s + 1)) as [-> | ?].
    + intros _. right. lia.
    + rewrite lookup_insert_ne by done. by left.
  - split; repeat constructor; lia.
  - intros rid e. destruct (decide (rid = request_id_counter s + 1)) as [-> | ?].
    + intros _. right. lia.
    + rewrite lookup_delete_ne, lookup_insert_ne by done. by left.
Qed.

Lemma update_data_correlator (key : string) (d : option DataAndSlot)
  (s : State) : same_correlator s (_update_data key d s).
Proof.
  unfold _update_data. destruct d as [nd |]; [| done].
  destruct (cached key s) as [cur |]; [| done].
  by destruct (slot nd >=? slot cur).
Qed.

Lemma add_account_register_correlator (pubkey : Pubkey) (decode_fn : Decoder)
  (initial_data : option DataAndSlot) (oracle_id : option string) (s : State) :
  same_correlator s
    (add_account_register pubkey decode_fn initial_data oracle_id s).1.
Proof.
  unfold add_account_register.
  destruct (pubkey_to_subscription s !! pubkey), oracle_id, initial_data;
    done.
Qed.

Lemma add_account_fetch_correlator (pubkey : Pubkey) (key : string)
  (local_initial : option DataAndSlot) (fetch : FetchOutcome) (s : State) :
  same_correlator s (add_account_fetch pubkey key local_initial fetch s).1.1
  ∧ subscribe_ids (add_account_fetch pubkey key local_initial fetch s).1.2
    = [].
Proof. unfold add_account_fetch. by destruct local_initial, fetch. Qed.

Lemma add_account_send_advances (pubkey : Pubkey)
  (oracle_id : option string) (send_ok : bool) (s : State) :
  advances s (add_account_send pubkey oracle_id send_ok s).
Proof.
  unfold add_account_send. destruct (ws s); [| by apply advances_same].
  destruct (pubkey_to_subscription s !! pubkey); [by apply advances_same |].
  apply send_subscribe_advances.
Qed.

Lemma add_account_advances (pubkey : Pubkey) (decode : option Decoder)
  (initial_data : option DataAndSlot) (oracle_id : option string)
  (fetch : FetchOutcome) (send_ok : bool) (s : State) :
  advances s
    (add_account pubkey decode initial_data oracle_id fetch send_ok s).
Proof.
  unfold add_account.
  pose proof (add_account_register_correlator pubkey
                (decode_or_default decode) initial_data oracle_id s) as Hreg.
  destruct (add_account_register pubkey (decode_or_default decode)
              initial_data oracle_id s) as [s1 [local_initial |]];
    simpl in Hreg; [| by apply advances_same].
  pose proof (add_account_fetch_correlator pubkey (key_of pubkey oracle_id)
                local_initial fetch s1) as [Hf He].
  destruct (add_account_fetch pubkey (key_of pubkey oracle_id) local_initial
              fetch s1) as [[s2 e2] go]; simpl in Hf, He.
  pose proof (same_correlator_trans _ _ _ Hreg Hf) as H2.
  destruct go; [| by apply advances_same].
  pose proof (add_account_send_advances pubkey oracle_id send_ok s2) as Hs.
  destruct (add_account_send pubkey oracle_id send_ok s2) as [s3 e3].
  apply (advances_trans s (s2, e2) (s3, e3)); [by apply advances_same | done].
Qed.

Lemma subscribe_initial_step (send_ok : Z → bool) (s0 : State)
  (e0 : list Effect) (pubkey : Pubkey) (key : string) :
  ∃ s1 e1,
    subscribe_initial send_ok (s0, e0) (pubkey, key) = (s1, e0 ++ e1)
    ∧ advances s0 (s1, e1).
Proof.
  unfold subscribe_initial. simpl.
  set (oid := if decide (key = pubkey_str pubkey) then None else Some key).
  set (ok := send_ok (request_id_counter s0 + 1)).
  pose proof (send_subscribe_advances pubkey oid ok s0) as [Ha _].
  destruct (send_subscribe pubkey oid ok s0) as [s1 e1].
  by exists s1, e1.
Qed.

Lemma subscribe_initial_advances (send_ok : Z → bool)
  (accounts : list (Pubkey * string)) :
  ∀ (s0 : State) (e0 : list Effect),
    ∃ s1 e1,
      foldl (subscribe_initial send_ok) (s0, e0) accounts = (s1, e0 ++ e1)
      ∧ advances s0 (s1, e1).
Proof.
  induction accounts as [| [pubkey key] accounts IH]; intros s0 e0;
    cbn [foldl].
  - exists s0, []. rewrite app_nil_r. split; [done |].
    by apply advances_same.
  - destruct (subscribe_initial_step send_ok s0 e0 pubkey key)
      as (s1 & e1 & -> & Ha1).
    destruct (IH s1 (e0 ++ e1)) as (s2 & e2 & -> & Ha2).
    exists s2, (e1 ++ e2). split; [by rewrite app_assoc |].
    apply (advances_trans s0 (s1, e1) (s2, e2)); done.
Qed.

Lemma on_connected_advances (send_ok : Z → bool) (s : State) :
  advances s (on_connected send_ok s).
Proof.
  unfold on_connected. simpl. destruct (running s).
  - destruct (subscribe_initial_advances send_ok
                (initial_accounts (map_to_list (data_map s)).*1
                   (set_ws true s)) (set_ws true s) [])
      as (s1 & e1 & -> & Ha).
    exact Ha.
  - by apply advances_same.
Qed.

Lemma forget_fold_correlator (s : State) (X : gset string) :
  same_correlator s (set_fold forget_oracle_id s X).
Proof.
  pose (P := λ (r : State) (Y : gset string), same_correlator s r).
  change (P (set_fold forget_oracle_id s X) X).
  apply set_fold_ind_L; unfold P; clear P; cbv beta; [done |].
  intros x Y r _ Hr. exact Hr.
Qed.

Lemma remove_account_advances (pubkey : Pubkey) (oracle_id : option string)
  (s : State) : advances s (remove_account pubkey oracle_id s).1.
Proof.
  assert (Hkeys : same_correlator s
                    (remove_account_keys pubkey oracle_id s).1).
  { unfold remove_account_keys. destruct oracle_id as [o |]; simpl.
    - by destruct (pubkey_to_oracle_ids s !! pubkey).
    - destruct (pubkey_to_oracle_ids s !! pubkey) as [ids |]; [| done].
      apply (forget_fold_correlator s ids). }
  unfold remove_account.
  destruct (remove_account_keys pubkey oracle_id s) as [s1 stop];
    simpl in Hkeys.
  destruct stop; [by apply advances_same |].
  destruct (pubkey_to_subscription s1 !! pubkey) as [sid |];
    [| by apply advances_same].
  destruct (subscription_map s1 !! sid); simpl;
    apply advances_same; try done; by destruct (ws s1).
Qed.

Lemma handle_confirmation_advances (result : Z) (id : IdField) (s : State) :
  advances s (handle_confirmation result id s).
Proof.
  assert (Hparse : subscribe_ids (parse_request_id id).2 = []).
  { unfold parse_request_id. destruct id as [| n | raw]; try done.
    by destruct (int_of_str raw). }
  unfold handle_confirmation.
  destruct (parse_request_id id) as [request_id e0]; simpl in Hparse.
  assert (Hwarn : ∀ w, subscribe_ids (e0 ++ [w]) = subscribe_ids [w]).
  { intros w. unfold subscribe_ids in *. by rewrite omap_app, Hparse. }
  destruct (match request_id with
            | Some r => (λ e, (r, e)) <$> inflight_subscribes s !! r
            | None => None
            end) as [[r [pubkey o]] |].
  - unfold advances. simpl. rewrite Hparse.
    split_and!; [lia | apply ids_within_nil | done |].
    intros rid e Hin. left.
    destruct (decide (rid = r)) as [-> | Hne];
      [by rewrite lookup_delete_eq in Hin |
       by rewrite lookup_delete_ne in Hin].
  - destruct (pending_subscriptions s) as [| pubkey rest] eqn:Hpend.
    + apply advances_same; [done | by rewrite Hwarn].
    + unfold advances. simpl. rewrite Hwarn. simpl.
      split_and!; [lia | apply ids_within_nil | by rewrite Hpend | by left].
Qed.

Lemma handle_frame_advances (f : Frame) (s : State) :
  advances s (handle_frame f s).
Proof.
  destruct f as [result id | subscription slot_field account_bytes |];
    simpl; [apply handle_confirmation_advances | | by apply advances_same].
  unfold handle_notification.
  destruct (subscription ≫= λ sid, subscription_map s !! sid) as [pubkey |];
    [| by apply advances_same].
  destruct (decide (oracle_ids_of pubkey s ≠ ∅)).
  - destruct (notify_fold slot_field account_bytes s (oracle_ids_of pubkey s))
      as [-> _].
    by apply advances_same.
  - destruct (notify_key_frame slot_field account_bytes (pubkey_str pubkey) s)
      as [-> _].
    by apply advances_same.
Qed.

(** Every event but [unsubscribe] advances the request ids. *)
Lemma step_advances (e : Event) (s : State) :
  is_unsubscribe e = false → advances s (step e s).
Proof.
  destruct e; simpl; try done; intros _.
  - apply add_account_advances.
  - apply remove_account_advances.
  - unfold fetch_one. destruct (decode_map s !! key_of pubkey oracle_id);
      [| by apply advances_same].
    destruct fetch; simpl; apply advances_same; try done.
    apply update_data_correlator.
  - destruct key as [pubkey | k]; simpl; [| by apply advances_same].
    destruct (elements (oracle_ids_of pubkey s)) as [| o [| o' l]];
      by apply advances_same.
  - apply advances_same; [| done]. unfold subscribe. by destruct (task s).
  - apply on_connected_advances.
  - apply handle_frame_advances.
  - by apply advances_same.
  - unfold advances; simpl.
    split_and!; [lia | apply ids_within_nil | done | done].
  - unfold advances; simpl.
    split_and!; [lia | apply ids_within_nil | done | done].
  - unfold advances; simpl.
    split_and!; [lia | apply ids_within_nil | done | done].
Qed.

Lemma run_cons (e : Event) (es : list Event) (s : State) :
  run (e :: es) s
  = ((run es (step e s).1).1, (step e s).2 ++ (run es (step e s).1).2).
Proof.
  simpl. destruct (step e s) as [s1 e1]. simpl.
  by destruct (run es s1) as [s2 e2].
Qed.

(** Request ids in a run without [unsubscribe]: strictly increasing, never
    reused, always above the counter the run started with. *)
Lemma run_advances (es : list Event) :
  ∀ s, forallb (λ e, negb (is_unsubscribe e)) es = true →
       advances s (run es s).
Proof.
  induction es as [| e es IH]; intros s Hes.
  - by apply advances_same.
  - simpl in Hes. apply andb_true_iff in Hes as [He Hes].
    apply negb_true_iff in He. rewrite run_cons.
    apply (advances_trans s (step e s) (run es (step e s).1));
      [by apply step_advances | by apply IH].
Qed.

(** Nothing ever puts an address on [pending_subscriptions]. *)
Lemma step_pending_empty (e : Event) (s : State) :
  pending_subscriptions s = [] → pending_subscriptions (step e s).1 = [].
Proof.
  destruct (is_unsubscribe e) eqn:He.
  - destruct e; try done. intros Hp. simpl. unfold unsubscribe. simpl.
    destruct (task s); [destruct t |]; simpl; done.
  - by destruct (step_advances e s He) as (_ & _ & Hp & _).
Qed.

Lemma run_pending_empty (es : list Event) :
  ∀ s, pending_subscriptions s = [] →
       pending_subscriptions (run es s).1 = [].
Proof.
  induction es as [| e es IH]; intros s Hs; [done |].
  rewrite run_cons. simpl. apply IH. by apply step_pending_empty.
Qed.

(** In a state reached from [__init__], a confirmation that matches no
    request in flight records nothing: the pending list is empty, so the
    [pop(0)] of line 401 is never executed. *)
Lemma fallback_never_matches (es : list Event) (result : Z) (id : IdField) :
  let s := (run es init_state).1 in
  (∀ r, (parse_request_id id).1 = Some r → inflight_subscribes s !! r = None) →
  handle_confirmation result id s
  = (s, (parse_request_id id).2
          ++ [WarnNoPending (parse_request_id id).1 result]).
Proof.
  intros s Hno. unfold handle_confirmation.
  destruct (parse_request_id id) as [request_id e0]; simpl in *.
  assert (Hpend : pending_subscriptions s = [])
    by (by apply run_pending_empty).
  destruct request_id as [r |]; [rewrite (Hno r eq_refl); simpl |];
    by rewrite Hpend.
Qed.

(** *** Disconnects *)

(** The handlers of lines 468-475, 481-490 and 511-526 empty the two
    subscription maps and the requests in flight, and keep the counter, the
    decoders and the cached values. *)
Lemma clear_connection_spec (s : State) :
  subscription_map (clear_connection s) = ∅
  ∧ pubkey_to_subscription (clear_connection s) = ∅
  ∧ inflight_subscribes (clear_connection s) = ∅
  ∧ request_id_counter (clear_connection s) = request_id_counter s
  ∧ decode_map (clear_connection s) = decode_map s
  ∧ data_map (clear_connection s) = data_map s.
Proof. done. Qed.

Lemma inflight_above_advances (c : Z) (s : State) (r : State * list Effect) :
  inflight_above c s → advances s r → inflight_above c r.1.
Proof.
  intros [Hc Hin] (Hle & _ & _ & Hi). split; [lia |].
  intros rid e Hr. destruct (Hi rid e Hr) as [Hold | Hnew]; [| lia].
  specialize (Hin rid e Hold). lia.
Qed.

(** After one of the clearing handlers, and whatever happens next short of
    [unsubscribe], a confirmation that carries a request id issued before
    the disconnect matches nothing and is dropped with the warning of
    line 407, provided nothing is pending (as in every reachable state). *)
Lemma stale_confirmation_dropped (s0 : State) (es : list Event)
  (result old_id : Z) :
  pending_subscriptions s0 = [] →
  forallb (λ e, negb (is_unsubscribe e)) es = true →
  old_id ≤ request_id_counter s0 →
  let s := (run es (clear_connection s0)).1 in
  handle_frame (Confirmation result (IdInt old_id)) s
  = (s, [WarnNoPending (Some old_id) result]).
Proof.
  intros Hpend Hes Hold s. simpl. unfold handle_confirmation. simpl.
  assert (Habove : inflight_above (request_id_counter s0) s).
  { apply (inflight_above_advances _ (clear_connection s0));
      [| by apply run_advances].
    split; [done |]. intros rid e. simpl. by rewrite lookup_empty. }
  assert (Hp : pending_subscriptions s = [])
    by (by apply run_pending_empty).
  destruct (inflight_subscribes s !! old_id) as [e |] eqn:Hin.
  - destruct Habove as [_ Hall]. specialize (Hall old_id e Hin). lia.
  - simpl. by rewrite Hp.
Qed.

(** *** Confirmations that match *)

Lemma parse_request_id_matched (id : IdField) (rid : Z) :
  (parse_request_id id).1 = Some rid → (parse_request_id id).2 = [].
Proof.
  unfold parse_request_id. destruct id as [| n | raw]; simpl; try done.
  by destruct (int_of_str raw).
Qed.

(** The loop of lines 393-395: every synthetic key of the address is mapped
    to the subscription id; the other keys keep their entry. *)
Lemma confirm_oracle_ids_lookup (pubkey : Pubkey) (sid : Z) (s : State)
  (k : string) :
  oracle_id_to_subscription (confirm_oracle_ids pubkey sid s) !! k
  = if decide (k ∈ oracle_ids_of pubkey s) then Some sid
    else oracle_id_to_subscription s !! k.
Proof.
  unfold confirm_oracle_ids. simpl.
  pose (P := λ (m : gmap string Z) (Y : gset string),
    m !! k = if decide (k ∈ Y) then Some sid
             else oracle_id_to_subscription s !! k).
  change (P (set_fold (λ oid m, <[oid := sid]> m)
               (oracle_id_to_subscription s) (oracle_ids_of pubkey s))
            (oracle_ids_of pubkey s)).
  apply set_fold_ind_L; unfold P; clear P; cbv beta.
  - by rewrite decide_empty.
  - intros x Y m Hx Hm. destruct (decide (k = x)) as [-> | Hne].
    + by rewrite lookup_insert_eq, decide_union_self.
    + rewrite lookup_insert_ne by done. rewrite Hm. symmetry.
      by apply decide_union_other.
Qed.

(** X1.  A confirmation whose id, an integer or a numeral, is the id of a
    request in flight for an address: the request leaves the in-flight map,
    the subscription id and the address are recorded for each other, every
    synthetic key of the address is mapped to the subscription id, and
    nothing is logged.  The cache, the decoders, the keys of the addresses
    and the counter are as before. *)
Theorem confirmation_matched (result rid : Z) (id : IdField)
  (pubkey : Pubkey) (oracle_id : option string) (s : State) :
  (parse_request_id id).1 = Some rid →
  inflight_subscribes s !! rid = Some (pubkey, oracle_id) →
  let r := handle_frame (Confirmation result id) s in
  r.2 = []
  ∧ inflight_subscribes r.1 = delete rid (inflight_subscribes s)
  ∧ subscription_map r.1 = <[result := pubkey]> (subscription_map s)
  ∧ pubkey_to_subscription r.1
    = <[pubkey := result]> (pubkey_to_subscription s)
  ∧ (∀ k, oracle_id_to_subscription r.1 !! k
          = if decide (k ∈ oracle_ids_of pubkey s) then Some result
            else oracle_id_to_subscription s !! k)
  ∧ data_map r.1 = data_map s
  ∧ decode_map r.1 = decode_map s
  ∧ pubkey_to_oracle_ids r.1 = pubkey_to_oracle_ids s
  ∧ request_id_counter r.1 = request_id_counter s.
Proof.
  intros Hid Hin. simpl. unfold handle_confirmation.
  pose proof (parse_request_id_matched id rid Hid) as He.
  destruct (parse_request_id id) as [request_id e0]. simpl in Hid, He.
  subst request_id e0. rewrite Hin. simpl.
  split_and!; try done.
  intros k.
  by rewrite (confirm_oracle_ids_lookup pubkey result
                (record_subscription pubkey result
                   (set_inflight_subscribes
                      (delete rid (inflight_subscribes s)) s)) k).
Qed.

(** *** Request ids over whole runs *)

(** X2.  In a run without [unsubscribe] the request-id counter never
    decreases, and the subscribe frames sent during the run carry strictly
    increasing ids, each larger than the counter at the start of the run
    and at most the counter at its end: no id is used twice. *)
Theorem request_ids_strictly_increasing (es : list Event) (s : State) :
  forallb (λ e, negb (is_unsubscribe e)) es = true →
  let r := run es s in
  request_id_counter s ≤ request_id_counter r.1
  ∧ StronglySorted Z.lt (subscribe_ids r.2)
  ∧ Forall (λ i, request_id_counter s < i ≤ request_id_counter r.1)
      (subscribe_ids r.2).
Proof.
  intros Hes. destruct (run_advances es s Hes) as (Hle & [Hs Hf] & _).
  by split_and!.
Qed.

Lemma step_inflight_bounded (e : Event) (s : State) :
  inflight_bounded s → inflight_bounded (step e s).1.
Proof.
  intros [H0 Hin]. destruct (is_unsubscribe e) eqn:He.
  - destruct e; try done. simpl. unfold unsubscribe. simpl.
    destruct (task s); [destruct t |]; simpl; split; try done.
  - destruct (step_advances e s He) as (Hle & _ & _ & Hi).
    split; [lia |]. intros rid x Hr.
    destruct (Hi rid x Hr) as [Hold | Hnew]; [| lia].
    specialize (Hin rid x Hold). lia.
Qed.

Lemma run_inflight_bounded (es : list Event) :
  ∀ s, inflight_bounded s → inflight_bounded (run es s).1.
Proof.
  induction es as [| e es IH]; intros s Hs; [done |].
  rewrite run_cons. simpl. apply IH. by apply step_inflight_bounded.
Qed.

(** X3.  In every state reached from [__init__], whatever the events
    (including [unsubscribe], which resets the counter): the ids of the
    requests in flight lie between 1 and the counter, so the next id,
    counter + 1, is not in flight and recording a new request never
    overwrites a pending one. *)
Theorem next_request_id_is_free (es : list Event) :
  let s := (run es init_state).1 in
  0 ≤ request_id_counter s
  ∧ (∀ rid e, inflight_subscribes s !! rid = Some e →
              0 < rid ≤ request_id_counter s)
  ∧ inflight_subscribes s !! (request_id_counter s + 1) = None.
Proof.
  intros s.
  assert (Hb : inflight_bounded s).
  { apply run_inflight_bounded. split; [done |]. intros rid e. simpl.
    by rewrite lookup_empty. }
  destruct Hb as [H0 Hin]. split_and!; [done | done |].
  destruct (inflight_subscribes s !! (request_id_counter s + 1))
    as [e |] eqn:Hnext; [| done].
  specialize (Hin _ _ Hnext). lia.
Qed.

(** X4.  Nothing ever puts an address on [pending_subscriptions]: the list
    is empty in every state reached from [__init__].  Hence a confirmation
    that matches no request in flight (no id, an id that is not a numeral,
    or an unknown id) never records a subscription: it leaves the state as
    it is and logs the warning of line 407. *)
Theorem pending_subscriptions_always_empty (es : list Event) (result : Z)
  (id : IdField) :
  let s := (run es init_state).1 in
  pending_subscriptions s = []
  ∧ ((∀ r, (parse_request_id id).1 = Some r →
           inflight_subscribes s !! r = None) →
     (handle_frame (Confirmation result id) s).1 = s
     ∧ WarnNoPending (parse_request_id id).1 result
       ∈ (handle_frame (Confirmation result id) s).2).
Proof.
  intros s. split; [by apply run_pending_empty |].
  intros Hno. subst s. simpl.
  rewrite (fallback_never_matches es result id Hno). simpl.
  split; [done |]. apply elem_of_app. right. by apply list_elem_of_singleton.
Qed.

(** X5.  After one of the handlers that clear the connection state
    (lines 468-475, 481-490, 511-526), and whatever happens next short of
    [unsubscribe], a confirmation that carries a request id issued before
    the disconnect matches nothing: the state is unchanged and the warning
    of line 407 is logged.  (The pending list is assumed empty, as it is in
    every reachable state.) *)
Theorem confirmation_after_clear_is_dropped (s0 : State) (disconnect : Event)
  (es : list Event) (result old_id : Z) :
  disconnect ∈ [EvLoopConnectionClosed; EvConnectConnectionClosed;
                EvConnectError] →
  pending_subscriptions s0 = [] →
  forallb (λ e, negb (is_unsubscribe e)) es = true →
  old_id ≤ request_id_counter s0 →
  let s := (run (disconnect :: es) s0).1 in
  handle_frame (Confirmation result (IdInt old_id)) s
  = (s, [WarnNoPending (Some old_id) result]).
Proof.
  intros Hd Hpend Hes Hold s.
  assert (Hs : s = (run es (clear_connection s0)).1).
  { unfold s. rewrite run_cons. simpl.
    repeat (apply elem_of_cons in Hd as [-> | Hd]; [done |]).
    by apply elem_of_nil in Hd. }
  rewrite Hs. by apply stale_confirmation_dropped.
Qed.

(** X6.  [add_account] on a connected subscriber, for an address without
    subscription, with an initial value, when [ws.send] raises: the request
    id is consumed (the counter grows by one) but the request is retracted,
    so the in-flight map is as before; the error is printed; the decoder and
    the initial value stay stored under the key. *)
Theorem add_account_send_failure (pubkey : Pubkey) (decode : option Decoder)
  (d : DataAndSlot) (oracle_id : option string) (fetch : FetchOutcome)
  (s : State) :
  ws s = true →
  pubkey_to_subscription s !! pubkey = None →
  inflight_subscribes s !! (request_id_counter s + 1) = None →
  let r := add_account pubkey decode (Some d) oracle_id fetch false s in
  r.2 = [SubscribeFrame (request_id_counter s + 1) pubkey;
         PrintSubscribeError pubkey]
  ∧ request_id_counter r.1 = request_id_counter s + 1
  ∧ inflight_subscribes r.1 = inflight_subscribes s
  ∧ pubkey_to_subscription r.1 = pubkey_to_subscription s
  ∧ decode_map r.1 !! key_of pubkey oracle_id = Some (decode_or_default decode)
  ∧ cached (key_of pubkey oracle_id) r.1 = Some d.
Proof.
  intros Hws Hsub Hfree.
  unfold add_account, add_account_register. rewrite Hsub. simpl.
  unfold add_account_send.
  destruct oracle_id as [o |]; simpl; rewrite Hws, Hsub; simpl;
    rewrite delete_insert_eq, (delete_id _ _ Hfree);
    unfold cached; simpl; rewrite !lookup_insert_eq; done.
Qed.

(** *** Resubscription on connect *)

(** The loop of lines 222-241, with its set [seen_pubkeys]. *)
Lemma initial_accounts_fold (keys : list string) (s : State) :
  let acc :=
    foldl
      (λ (acc : list (Pubkey * string) * gset Pubkey) key,
         match pubkey_of_key key with
         | None => acc
         | Some pubkey =>
             if decide ((pubkey ∉ acc.2)
                        ∧ pubkey_to_subscription s !! pubkey = None)
             then (acc.1 ++ [(pubkey, key)], acc.2 ∪ {[pubkey]})
             else acc
         end)
      ([], ∅) keys in
  (∀ pk, pk ∈ acc.2 ↔ pk ∈ acc.1.*1)
  ∧ NoDup (acc.1.*1)
  ∧ (∀ pk key, (pk, key) ∈ acc.1 →
               key ∈ keys ∧ pubkey_of_key key = Some pk
               ∧ pubkey_to_subscription s !! pk = None)
  ∧ (∀ key pk, key ∈ keys → pubkey_of_key key = Some pk →
               pubkey_to_subscription s !! pk = None → pk ∈ acc.1.*1).
Proof.
  induction keys as [| k keys IH] using rev_ind; cbv zeta.
  - simpl. split_and!.
    + intros pk. split; [by intros ?%not_elem_of_empty | by intros ?%elem_of_nil].
    + constructor.
    + by intros pk key ?%elem_of_nil.
    + by intros key pk ?%elem_of_nil.
  - rewrite foldl_app. cbn [foldl].
    cbv zeta in IH. destruct IH as (Hseen & Hnd & Hsound & Hcomplete).
    destruct (foldl _ _ keys) as [l seen]. simpl in *.
    assert (Hkeep :
      (∀ pk key, (pk, key) ∈ l →
                 key ∈ keys ++ [k] ∧ pubkey_of_key key = Some pk
                 ∧ pubkey_to_subscription s !! pk = None)).
    { intros pk key Hin. destruct (Hsound pk key Hin) as (? & ? & ?).
      split_and!; try done. apply elem_of_app. by left. }
    destruct (pubkey_of_key k) as [pubkey |] eqn:Hk.
    2: { split_and!; try done. intros key pk Hin Hkey Hsub.
         apply elem_of_app in Hin as [Hin | ->%list_elem_of_singleton];
           [by eapply Hcomplete | congruence]. }
    destruct (decide ((pubkey ∉ seen)
                      ∧ pubkey_to_subscription s !! pubkey = None))
      as [[Hnew Hsub] | Hold]; simpl.
    + rewrite fmap_app. simpl. split_and!.
      * intros pk. rewrite elem_of_union, elem_of_singleton, elem_of_app,
          list_elem_of_singleton, Hseen. done.
      * apply NoDup_app. split_and!; [done | | apply NoDup_singleton].
        intros pk Hin ->%list_elem_of_singleton.
        apply Hnew. by apply Hseen.
      * intros pk key Hin.
        apply elem_of_app in Hin as [Hin | Heq%list_elem_of_singleton];
          [by apply Hkeep |].
        injection Heq as -> ->. split_and!; try done.
        apply elem_of_app. right. by apply list_elem_of_singleton.
      * intros key pk Hin Hkey Hpk. apply elem_of_app.
        apply elem_of_app in Hin as [Hin | ->%list_elem_of_singleton].
        -- left. by eapply Hcomplete.
        -- right. apply list_elem_of_singleton. congruence.
    + split_and!; try done. intros key pk Hin Hkey Hpk.
      apply elem_of_app in Hin as [Hin | ->%list_elem_of_singleton];
        [by eapply Hcomplete |].
      assert (pk = pubkey) as -> by congruence.
      apply Hseen. destruct (decide (pubkey ∈ seen)) as [? | Hnot]; [done |].
      exfalso. by apply Hold.
Qed.

(** X7.  The addresses subscribed when a connection is established
    (lines 220-241): no address appears twice, however many keys stand for
    it; each listed address is the one its key stands for and has no
    subscription on record; and every address that some cache key stands
    for and that has no subscription on record is listed. *)
Theorem initial_accounts_distinct_and_complete (keys : list string)
  (s : State) :
  NoDup ((initial_accounts keys s).*1)
  ∧ (∀ pk key, (pk, key) ∈ initial_accounts keys s →
               key ∈ keys ∧ pubkey_of_key key = Some pk
               ∧ pubkey_to_subscription s !! pk = None)
  ∧ (∀ key pk, key ∈ keys → pubkey_of_key key = Some pk →
               pubkey_to_subscription s !! pk = None →
               pk ∈ (initial_accounts keys s).*1).
Proof.
  destruct (initial_accounts_fold keys s) as (_ & Hnd & Hsound & Hcomplete).
  unfold initial_accounts. by split_and!.
Qed.

Lemma send_subscribe_frames (pubkey : Pubkey) (oracle_id : option string)
  (send_ok : bool) (s : State) :
  subscribe_frames (send_subscribe pubkey oracle_id send_ok s).2
  = [(request_id_counter s + 1, pubkey)]
  ∧ request_id_counter (send_subscribe pubkey oracle_id send_ok s).1
    = request_id_counter s + 1
  ∧ ws (send_subscribe pubkey oracle_id send_ok s).1 = ws s.
Proof. unfold send_subscribe. by destruct send_ok. Qed.

Lemma subscribe_initial_step_frames (send_ok : Z → bool) (s0 : State)
  (e0 : list Effect) (pubkey : Pubkey) (key : string) :
  ∃ s1 e1,
    subscribe_initial send_ok (s0, e0) (pubkey, key) = (s1, e0 ++ e1)
    ∧ subscribe_frames e1 = [(request_id_counter s0 + 1, pubkey)]
    ∧ request_id_counter s1 = request_id_counter s0 + 1
    ∧ ws s1 = ws s0.
Proof.
  unfold subscribe_initial. simpl.
  set (oid := if decide (key = pubkey_str pubkey) then None else Some key).
  set (ok := send_ok (request_id_counter s0 + 1)).
  pose proof (send_subscribe_frames pubkey oid ok s0) as (Hf & Hc & Hw).
  destruct (send_subscribe pubkey oid ok s0) as [s1 e1].
  by exists s1, e1.
Qed.

Lemma subscribe_initial_frames (send_ok : Z → bool)
  (accounts : list (Pubkey * string)) :
  ∀ (s0 : State) (e0 : list Effect),
    let r := foldl (subscribe_initial send_ok) (s0, e0) accounts in
    subscribe_frames r.2
    = subscribe_frames e0
      ++ imap (λ i a, (request_id_counter s0 + 1 + Z.of_nat i, a.1)) accounts
    ∧ request_id_counter r.1
      = request_id_counter s0 + Z.of_nat (length accounts)
    ∧ ws r.1 = ws s0.
Proof.
  induction accounts as [| [pubkey key] accounts IH]; intros s0 e0;
    cbn [foldl].
  - simpl. rewrite app_nil_r. split_and!; [done | lia | done].
  - destruct (subscribe_initial_step_frames send_ok s0 e0 pubkey key)
      as (s1 & e1 & -> & Hf & Hc & Hw).
    specialize (IH s1 (e0 ++ e1)). cbv zeta in IH.
    destruct IH as (IHf & IHc & IHw).
    cbv zeta. rewrite IHf, IHc, IHw, Hc, Hw.
    split_and!; [| simpl length; lia | done].
    unfold subscribe_frames at 1. rewrite omap_app.
    fold (subscribe_frames e0). fold (subscribe_frames e1).
    rewrite Hf, <- app_assoc. f_equal. simpl. f_equal.
    + f_equal. lia.
    + apply imap_ext. intros i a _. simpl. f_equal. lia.
Qed.

Lemma frames_name_accounts (c : Z) (accounts : list (Pubkey * string)) :
  (imap (λ i (a : Pubkey * string), (c + Z.of_nat i, a.1)) accounts).*2
  = accounts.*1.
Proof.
  revert c. induction accounts as [| a l IH]; intros c; [done |].
  rewrite imap_cons, !fmap_cons. f_equal. rewrite <- (IH (c + 1)). f_equal.
  apply imap_ext. intros i x _. simpl. f_equal. lia.
Qed.

Lemma on_connected_frames_aux (send_ok : Z → bool) (s : State) :
  running s = true →
  let accounts := initial_accounts (map_to_list (data_map s)).*1 s in
  let r := on_connected send_ok s in
  subscribe_frames r.2
  = imap (λ i a, (request_id_counter s + 1 + Z.of_nat i, a.1)) accounts
  ∧ request_id_counter r.1
    = request_id_counter s + Z.of_nat (length accounts)
  ∧ ws r.1 = true.
Proof.
  intros Hrun accounts r. unfold r, on_connected. simpl. rewrite Hrun.
  exact (subscribe_initial_frames send_ok accounts (set_ws true s) []).
Qed.


(** X9.  A feed added with an initial value while there is no socket sends
    nothing; when the connection is then established, its address, if the
    key stands for it, is among the addresses of the subscribe frames, and
    no address is named by two of these frames. *)
Theorem added_while_disconnected_subscribed_on_connect (pubkey : Pubkey)
  (decode : option Decoder) (d : DataAndSlot) (oracle_id : option string)
  (fetch : FetchOutcome) (add_send_ok : bool) (send_ok : Z → bool)
  (s : State) :
  ws s = false →
  running s = true →
  pubkey_to_subscription s !! pubkey = None →
  pubkey_of_key (key_of pubkey oracle_id) = Some pubkey →
  let r1 := add_account pubkey decode (Some d) oracle_id fetch add_send_ok s in
  let frames := subscribe_frames (on_connected send_ok r1.1).2 in
  r1.2 = [] ∧ pubkey ∈ frames.*2 ∧ NoDup (frames.*2).
Proof.
  intros Hws Hrun Hsub Hkey r1 frames.
  assert (Hadd : r1.2 = [] ∧ running r1.1 = true
                 ∧ pubkey_to_subscription r1.1 = pubkey_to_subscription s
                 ∧ data_map r1.1 !! key_of pubkey oracle_id = Some (Some d)).
  { unfold r1, add_account, add_account_register. rewrite Hsub. simpl.
    unfold add_account_send.
    destruct oracle_id as [o |]; simpl; rewrite Hws; simpl;
      by rewrite lookup_insert_eq. }
  destruct Hadd as (He & Hrun1 & Hsub1 & Hdata).
  split; [exact He |].
  destruct (on_connected_frames_aux send_ok r1.1 Hrun1) as (Hframes & _ & _).
  fold frames in Hframes.
  assert (Hnames : frames.*2
                   = (initial_accounts (map_to_list (data_map r1.1)).*1
                        r1.1).*1).
  { rewrite Hframes. apply frames_name_accounts. }
  rewrite Hnames.
  destruct (initial_accounts_fold (map_to_list (data_map r1.1)).*1 r1.1)
    as (_ & Hnd & _ & Hcomplete).
  split; [| exact Hnd].
  apply (Hcomplete (key_of pubkey oracle_id)); [| done | by rewrite Hsub1].
  apply list_elem_of_fmap. exists (key_of pubkey oracle_id, Some d).
  split; [done |]. by apply elem_of_map_to_list.
Qed.

(** *** Reading the address off a cache key *)

Lemma rsplit_dash_None (key : string) :
  rsplit_dash key = None ↔ ¬ In "-"%char (list_ascii_of_string key).
Proof.
  induction key as [| c rest IH]; simpl; [tauto |].
  destruct (rsplit_dash rest) as [[pre suf] |].
  - split; [done |]. intros Hn.
    assert (Hrest : Some (pre, suf) = (None : option (string * string)));
      [| done].
    apply IH. intros Hin. apply Hn. by right.
  - destruct (Ascii.eqb_spec c "-") as [-> | Hne].
    + split; [done |]. intros Hn. exfalso. apply Hn. by left.
    + split; [| done]. intros _ [Heq | Hin]; [by subst |].
      by apply (proj1 IH).
Qed.

Lemma rsplit_dash_append (pre suf : string) :
  rsplit_dash suf = None →
  rsplit_dash (String.append pre (String "-" suf)) = Some (pre, suf).
Proof.
  intros Hsuf. induction pre as [| c pre IH]; simpl.
  - by rewrite Hsuf.
  - by rewrite IH.
Qed.

Lemma rsplit_dash_Some (key pre suf : string) :
  rsplit_dash key = Some (pre, suf) →
  key = String.append pre (String "-" suf) ∧ rsplit_dash suf = None.
Proof.
  revert pre. induction key as [| c rest IH]; intros pre; simpl; [done |].
  destruct (rsplit_dash rest) as [[pre' suf'] |] eqn:Hrest.
  - intros [= <- <-]. destruct (IH pre' eq_refl) as [-> Hs]. by split.
  - destruct (Ascii.eqb_spec c "-") as [-> | Hne]; [| done].
    intros [= <- <-]. by split.
Qed.

Lemma all_digits_no_dash (s : string) :
  all_digits s = true → rsplit_dash s = None.
Proof.
  induction s as [| c rest IH]; simpl; [done |].
  intros [Hc Hrest]%andb_true_iff. rewrite (IH Hrest).
  destruct (Ascii.eqb_spec c "-") as [-> | Hne]; [done | done].
Qed.

(** X10.  The address a cache key stands for (lines 224-236 and 588-600).
    A key made of a text, a dash and a non-empty run of decimal digits
    stands for what [Pubkey.from_string] reads from the text before that
    last dash; a key without dash stands for what it reads from the whole
    key.  Splitting at the last dash loses nothing: the two parts, joined
    by a dash, give the key back, and the second part has no dash. *)
Theorem pubkey_of_key_resolution :
  (∀ pre suf, isdigit suf = true →
     pubkey_of_key (String.append pre (String "-" suf))
     = pubkey_from_string pre)
  ∧ (∀ key, ¬ In "-"%char (list_ascii_of_string key) →
       pubkey_of_key key = pubkey_from_string key)
  ∧ (∀ key pre suf, rsplit_dash key = Some (pre, suf) →
       key = String.append pre (String "-" suf)
       ∧ ¬ In "-"%char (list_ascii_of_string suf)).
Proof.
  split_and!.
  - intros pre suf Hd. unfold pubkey_of_key.
    assert (Hsuf : rsplit_dash suf = None).
    { apply all_digits_no_dash. by destruct suf. }
    by rewrite (rsplit_dash_append pre suf Hsuf), Hd.
  - intros key Hno. unfold pubkey_of_key.
    by rewrite (proj2 (rsplit_dash_None key) Hno).
  - intros key pre suf Hsplit.
    destruct (rsplit_dash_Some key pre suf Hsplit) as [Hkey Hsuf].
    split; [done |]. by apply rsplit_dash_None.
Qed.

(** *** The cache under pushes and fetches *)

Lemma slot_le_refl (a : option DataAndSlot) : slot_le a a.
Proof. destruct a; simpl; [lia | done]. Qed.

Lemma slot_le_trans (a b c : option DataAndSlot) :
  slot_le a b → slot_le b c → slot_le a c.
Proof. destruct a, b, c; simpl; try done; lia. Qed.

Lemma update_data_slot_le (key : string) (d : option DataAndSlot) (s : State)
  (k : string) :
  slot_le (cached k s) (cached k (_update_data key d s)).
Proof.
  unfold _update_data. destruct d as [nd |]; [| apply slot_le_refl].
  destruct (decide (key = k)) as [-> | Hne].
  - destruct (cached k s) as [cur |] eqn:Hcur.
    + destruct (Z.geb_spec (slot nd) (slot cur)).
      * rewrite cached_set_data_map_eq. simpl. lia.
      * rewrite Hcur. simpl. lia.
    + done.
  - destruct (cached key s) as [cur |];
      [destruct (slot nd >=? slot cur) |];
      rewrite ?cached_set_data_map_ne by done; apply slot_le_refl.
Qed.

Lemma notify_key_slot_le (sf : option Z) (b : bytes) (key : string)
  (s : State) (k : string) :
  slot_le (cached k s) (cached k (notify_key sf b key s)).
Proof.
  unfold notify_key. destruct (decode_map s !! key) as [dec |];
    [| apply slot_le_refl].
  destruct sf as [sl |]; [| apply slot_le_refl].
  destruct (dec b) as [v |]; [| apply slot_le_refl].
  apply update_data_slot_le.
Qed.

(** What a step does when it leaves decoders and key sets alone and moves
    no cached value to a smaller slot. *)
Lemma cache_grows_same (s r : State) :
  decode_map r = decode_map s →
  pubkey_to_oracle_ids r = pubkey_to_oracle_ids s →
  data_map r = data_map s →
  decode_map r = decode_map s
  ∧ pubkey_to_oracle_ids r = pubkey_to_oracle_ids s
  ∧ ∀ k, slot_le (cached k s) (cached k r).
Proof.
  intros Hd Hp Hm. split_and!; [done | done |].
  intros k. unfold cached. rewrite Hm. apply slot_le_refl.
Qed.

Lemma subscribe_initial_cache (send_ok : Z → bool)
  (accounts : list (Pubkey * string)) :
  ∀ (s0 : State) (e0 : list Effect),
    let r := foldl (subscribe_initial send_ok) (s0, e0) accounts in
    decode_map r.1 = decode_map s0
    ∧ pubkey_to_oracle_ids r.1 = pubkey_to_oracle_ids s0
    ∧ data_map r.1 = data_map s0
    ∧ subscription_map r.1 = subscription_map s0
    ∧ pubkey_to_subscription r.1 = pubkey_to_subscription s0.
Proof.
  induction accounts as [| [pubkey key] accounts IH]; intros s0 e0;
    cbn [foldl]; [done |].
  assert (Hstep : ∃ s1 e1,
    subscribe_initial send_ok (s0, e0) (pubkey, key) = (s1, e1)
    ∧ decode_map s1 = decode_map s0
    ∧ pubkey_to_oracle_ids s1 = pubkey_to_oracle_ids s0
    ∧ data_map s1 = data_map s0
    ∧ subscription_map s1 = subscription_map s0
    ∧ pubkey_to_subscription s1 = pubkey_to_subscription s0).
  { unfold subscribe_initial, send_subscribe. simpl.
    destruct (send_ok (request_id_counter s0 + 1)); simpl;
      eexists _, _; split; try reflexivity; done. }
  destruct Hstep as (s1 & e1 & -> & Hd & Hp & Hm & Hs & Ht).
  specialize (IH s1 e1). cbv zeta in *.
  destruct IH as (IHd & IHp & IHm & IHs & IHt).
  split_and!; congruence.
Qed.

Lemma step_cache_grows (e : Event) (s : State) :
  merges_only e = true →
  decode_map (step e s).1 = decode_map s
  ∧ pubkey_to_oracle_ids (step e s).1 = pubkey_to_oracle_ids s
  ∧ ∀ k, slot_le (cached k s) (cached k (step e s).1).
Proof.
  destruct e; simpl; try done; intros _.
  - unfold fetch_one. destruct (decode_map s !! key_of pubkey oracle_id);
      [| by apply cache_grows_same].
    destruct fetch as [d |]; simpl; [| by apply cache_grows_same].
    split_and!; [| | intros k; apply update_data_slot_le].
    + unfold _update_data. destruct d as [nd |]; [| done].
      destruct (cached _ s) as [cur |];
        [by destruct (slot nd >=? slot cur) | done].
    + unfold _update_data. destruct d as [nd |]; [| done].
      destruct (cached _ s) as [cur |];
        [by destruct (slot nd >=? slot cur) | done].
  - destruct key as [pubkey | k]; simpl; [| by apply cache_grows_same].
    destruct (elements (oracle_ids_of pubkey s)) as [| o [| o' l]];
      by apply cache_grows_same.
  - apply cache_grows_same; unfold subscribe; by destruct (task s).
  - unfold on_connected. simpl. destruct (running s);
      [| by apply cache_grows_same].
    destruct (subscribe_initial_cache send_ok
                (initial_accounts (map_to_list (data_map s)).*1
                   (set_ws true s)) (set_ws true s) [])
      as (Hd & Hp & Hm & _).
    by apply cache_grows_same.
  - destruct f as [result id | subscription slot_field account_bytes |];
      simpl; [| | by apply cache_grows_same].
    + unfold handle_confirmation.
      destruct (parse_request_id id) as [request_id e0].
      destruct (match request_id with
                | Some r => (λ e, (r, e)) <$> inflight_subscribes s !! r
                | None => None
                end) as [[r [pubkey o]] |]; [by apply cache_grows_same |].
      destruct (pending_subscriptions s); by apply cache_grows_same.
    + unfold handle_notification.
      destruct (subscription ≫= λ sid, subscription_map s !! sid)
        as [pubkey |]; [| by apply cache_grows_same].
      destruct (decide (oracle_ids_of pubkey s ≠ ∅)); simpl.
      * destruct (notify_fold slot_field account_bytes s
                    (oracle_ids_of pubkey s)) as [Hframe Hk].
        split_and!; [by rewrite Hframe | by rewrite Hframe |].
        intros k. unfold cached at 2. rewrite Hk.
        destruct (decide (k ∈ oracle_ids_of pubkey s));
          [| apply slot_le_refl].
        apply (notify_key_slot_le slot_field account_bytes k s k).
      * destruct (notify_key_frame slot_field account_bytes
                    (pubkey_str pubkey) s) as [Hframe _].
        split_and!; [by rewrite Hframe | by rewrite Hframe |].
        intros k. apply notify_key_slot_le.
  - by apply cache_grows_same.
  - by apply (cache_grows_same s (clear_connection s)).
  - by apply (cache_grows_same s (clear_connection s)).
  - by apply (cache_grows_same s (clear_connection s)).
Qed.

(** X11.  Pushes, fetches, reads, connects and disconnects (every event
    but [add_account], [remove_account] and [unsubscribe]) never remove a
    cached value and never replace it by one with a smaller slot; they
    leave the decoders and the key sets of the addresses as they are. *)
Theorem cache_slots_never_decrease (es : list Event) (s : State) :
  forallb merges_only es = true →
  decode_map (run es s).1 = decode_map s
  ∧ pubkey_to_oracle_ids (run es s).1 = pubkey_to_oracle_ids s
  ∧ ∀ k, slot_le (cached k s) (cached k (run es s).1).
Proof.
  revert s. induction es as [| e es IH]; intros s Hes.
  - split_and!; [done | done |]. intros k. apply slot_le_refl.
  - simpl in Hes. apply andb_true_iff in Hes as [He Hes].
    rewrite run_cons. simpl.
    destruct (step_cache_grows e s He) as (Hd & Hp & Hk).
    destruct (IH (step e s).1 Hes) as (IHd & IHp & IHk).
    split_and!; [congruence | congruence |].
    intros k. eapply slot_le_trans; [apply Hk | apply IHk].
Qed.

(** X12.  A notification for an address without synthetic keys, whose own
    key has a decoder that accepts the bytes, followed by [get_data] on the
    address: the read returns the pushed value at the pushed slot when
    nothing was cached or the pushed slot is at least the cached one, and
    the value cached before otherwise. *)
Theorem read_after_notification (pubkey : Pubkey) (sid sl : Z)
  (account_bytes : bytes) (decode_fn : Decoder) (decoded : V) (s : State) :
  subscription_map s !! sid = Some pubkey →
  oracle_ids_of pubkey s = ∅ →
  decode_map s !! pubkey_str pubkey = Some decode_fn →
  decode_fn account_bytes = Some decoded →
  let s' := (handle_frame
               (Notification (Some sid) (Some sl) account_bytes) s).1 in
  (get_data (KeyPubkey pubkey) s').2
  = match cached (pubkey_str pubkey) s with
    | Some cur =>
        if sl >=? slot cur then Some (mkDataAndSlot sl decoded) else Some cur
    | None => Some (mkDataAndSlot sl decoded)
    end.
Proof.
  intros Hsid Hids Hdec Hok s'.
  assert (Hs' : s' = notify_key (Some sl) account_bytes (pubkey_str pubkey) s).
  { unfold s'. simpl. unfold handle_notification. simpl. rewrite Hsid, Hids.
    by destruct (decide ((∅ : gset string) ≠ ∅)). }
  assert (Hget : ∀ r, pubkey_to_oracle_ids r = pubkey_to_oracle_ids s →
                      (get_data (KeyPubkey pubkey) r).2
                      = cached (pubkey_str pubkey) r).
  { intros r Hr. unfold get_data, oracle_ids_of. rewrite Hr.
    fold (oracle_ids_of pubkey s). by rewrite Hids, elements_empty. }
  rewrite Hs'. clear Hs' s'. unfold notify_key. rewrite Hdec, Hok.
  unfold _update_data.
  destruct (cached (pubkey_str pubkey) s) as [cur |] eqn:Hcur.
  - cbn [slot]. destruct (sl >=? slot cur).
    + rewrite Hget by done. apply cached_set_data_map_eq.
    + by rewrite Hget.
  - rewrite Hget by done. apply cached_set_data_map_eq.
Qed.

(** *** [fetch] of all accounts *)

(** [_update_data] either leaves the state alone or writes one value under
    its key, and the choice depends only on what is cached under the key. *)
Lemma update_data_shape (key : string) (d : option DataAndSlot) (s : State) :
  ∃ o : option DataAndSlot,
    ∀ r : State,
      cached key r = cached key s →
      _update_data key d r
      = match o with
        | Some nd => set_data_map (<[key := Some nd]> (data_map r)) r
        | None => r
        end.
Proof.
  unfold _update_data. destruct d as [nd |]; [| by exists None].
  destruct (cached key s) as [cur |] eqn:Hcur.
  - destruct (slot nd >=? slot cur) eqn:Hge.
    + exists (Some nd). intros r Hr. by rewrite Hr, Hge.
    + exists None. intros r Hr. by rewrite Hr, Hge.
  - exists (Some nd). intros r Hr. by rewrite Hr.
Qed.

Lemma fetch_targets_keys (s : State) :
  (fetch_targets s).*1
  = filter (λ k, is_Some (pubkey_of_key k)) (map_to_list (decode_map s)).*1.
Proof.
  unfold fetch_targets.
  induction (map_to_list (decode_map s)) as [| [k dec] l IH]; [done |].
  simpl. destruct (pubkey_of_key k) as [pk |] eqn:Hk; simpl.
  - rewrite filter_cons_True by (by rewrite Hk). f_equal. exact IH.
  - rewrite filter_cons_False by (rewrite Hk; by intros [? ?]). exact IH.
Qed.

Lemma fetch_targets_spec (s : State) (k : string) :
  NoDup ((fetch_targets s).*1)
  ∧ (k ∈ (fetch_targets s).*1
     ↔ is_Some (pubkey_of_key k) ∧ is_Some (decode_map s !! k)).
Proof.
  rewrite fetch_targets_keys. split.
  - apply NoDup_filter, NoDup_fst_map_to_list.
  - rewrite list_elem_of_filter, list_elem_of_fmap. split.
    + intros [Hp ([k' dec] & -> & Hin)]. split; [done |].
      apply elem_of_map_to_list in Hin. by exists dec.
    + intros [Hp [dec Hdec]]. split; [done |].
      exists (k, dec). split; [done |]. by apply elem_of_map_to_list.
Qed.

(** The loop of lines 608-611 over keys that are pairwise different. *)
Lemma fetch_fold (answers : string → FetchOutcome)
  (targets : list (string * Pubkey)) (s : State) :
  NoDup (targets.*1) →
  let r := foldl (λ acc (t : string * Pubkey),
                    match answers t.1 with
                    | FetchReturns d => _update_data t.1 d acc
                    | FetchRaises => acc
                    end) s targets in
  r = set_data_map (data_map r) s
  ∧ ∀ k, data_map r !! k
         = if decide (k ∈ targets.*1)
           then match answers k with
                | FetchReturns d => data_map (_update_data k d s) !! k
                | FetchRaises => data_map s !! k
                end
           else data_map s !! k.
Proof.
  induction targets as [| [key pk] targets IH] using rev_ind;
    intros Hnd; cbv zeta.
  - simpl. split; [by destruct s |]. intros k.
    destruct (decide (k ∈ [])) as [Hin | _]; [by apply elem_of_nil in Hin | done].
  - rewrite fmap_app in Hnd. simpl in Hnd.
    apply NoDup_app in Hnd as (Hnd & Hfresh & _).
    specialize (IH Hnd). cbv zeta in IH. destruct IH as [Hr Hk].
    rewrite foldl_app. cbn [foldl fst].
    set (r := foldl _ s targets) in *.
    assert (Hnew : key ∉ targets.*1).
    { intros Hin. apply (Hfresh key Hin). by apply list_elem_of_singleton. }
    assert (Hcur : cached key r = cached key s).
    { unfold cached. rewrite Hk.
      by destruct (decide (key ∈ targets.*1)). }
    assert (Hmem : ∀ k, k ≠ key →
              (if decide (k ∈ (targets ++ [(key, pk)]).*1)
               then match answers k with
                    | FetchReturns d => data_map (_update_data k d s) !! k
                    | FetchRaises => data_map s !! k
                    end
               else data_map s !! k) = data_map r !! k).
    { intros k Hne. rewrite Hk, fmap_app. simpl.
      destruct (decide (k ∈ targets.*1)) as [Hin | Hin],
        (decide (k ∈ targets.*1 ++ [key])) as [Hin' | Hin']; try done.
      - exfalso. apply Hin', elem_of_app. by left.
      - exfalso. apply elem_of_app in Hin' as [? | ?%list_elem_of_singleton];
          done. }
    assert (Hself : ∀ v,
              (if decide (key ∈ (targets ++ [(key, pk)]).*1) then v
               else data_map s !! key) = v).
    { intros v. rewrite fmap_app. simpl.
      destruct (decide (key ∈ targets.*1 ++ [key])) as [_ | Hn]; [done |].
      exfalso. apply Hn, elem_of_app. right.
      by apply list_elem_of_singleton. }
    destruct (answers key) as [d |] eqn:Hans.
    + destruct (update_data_shape key d s) as [o Ho].
      rewrite (Ho r Hcur). pose proof (Ho s eq_refl) as Hs.
      split.
      * destruct o as [nd |]; [| done]. simpl. by apply set_data_map_frame.
      * intros k. destruct (decide (k = key)) as [-> | Hne].
        -- rewrite Hself, Hans, Hs. destruct o as [nd |]; simpl.
           ++ by rewrite !lookup_insert_eq.
           ++ rewrite Hk. by destruct (decide (key ∈ targets.*1)).
        -- rewrite (Hmem k Hne).
           destruct o as [nd |]; simpl; [by rewrite lookup_insert_ne | done].
    + split; [done |]. intros k.
      destruct (decide (k = key)) as [-> | Hne].
      * rewrite Hself, Hans, Hk. by destruct (decide (key ∈ targets.*1)).
      * by rewrite (Hmem k Hne).
Qed.

(** X13.  [fetch()] without argument changes nothing but [data_map], and
    treats every key on its own: a key that has a decoder, stands for an
    address and whose snapshot arrives is merged with [_update_data]; a key
    whose snapshot request raises, a key without decoder and a key that
    stands for no address keep what was cached.  One failure never blocks
    the other keys. *)
Theorem fetch_all_per_key (answers : string → FetchOutcome) (s : State) :
  let r := fetch_all answers s in
  r.1 = set_data_map (data_map r.1) s
  ∧ (∀ k d, is_Some (decode_map s !! k) → is_Some (pubkey_of_key k) →
            answers k = FetchReturns d →
            data_map r.1 !! k = data_map (_update_data k d s) !! k)
  ∧ (∀ k, answers k = FetchRaises ∨ decode_map s !! k = None
          ∨ pubkey_of_key k = None →
          data_map r.1 !! k = data_map s !! k).
Proof.
  cbv zeta. unfold fetch_all. cbn [fst].
  destruct (fetch_fold answers (fetch_targets s) s
              (proj1 (fetch_targets_spec s ""))) as [Hframe Hk].
  split; [exact Hframe |]. split.
  - intros k d Hdec Hpk Hans. rewrite Hk, Hans.
    destruct (decide (k ∈ (fetch_targets s).*1)) as [_ | Hn]; [done |].
    exfalso. apply Hn. by apply (fetch_targets_spec s k).
  - intros k Hcase. rewrite Hk.
    destruct (decide (k ∈ (fetch_targets s).*1)) as [Hin | _]; [| done].
    apply (fetch_targets_spec s k) in Hin as [[pk Hpk] [dec Hdec]].
    destruct Hcase as [-> | [Hnone | Hnone]]; [done | congruence | congruence].
Qed.

(** *** The two subscription maps *)

Lemma consistent_same (s r : State) :
  same_subscriptions s r →
  subscriptions_consistent s → subscriptions_consistent r.
Proof.
  intros [Hm Hp] Hs pk sid. rewrite Hm, Hp. apply Hs.
Qed.

Lemma add_account_same_subscriptions (pubkey : Pubkey)
  (decode : option Decoder) (initial_data : option DataAndSlot)
  (oracle_id : option string) (fetch : FetchOutcome) (send_ok : bool)
  (s : State) :
  same_subscriptions s
    (add_account pubkey decode initial_data oracle_id fetch send_ok s).1.
Proof.
  unfold add_account, add_account_register, add_account_fetch,
    add_account_send, send_subscribe, store_initial.
  destruct (pubkey_to_subscription s !! pubkey) as [sid |] eqn:Hsub; simpl.
  - by destruct oracle_id, initial_data.
  - destruct initial_data as [d |]; simpl.
    + destruct oracle_id; simpl; destruct (ws s); simpl; rewrite ?Hsub;
        try done; by destruct send_ok.
    + destruct (cached (key_of pubkey oracle_id) _) as [c |]; simpl.
      * destruct oracle_id; simpl; destruct (ws s); simpl; rewrite ?Hsub;
          try done; by destruct send_ok.
      * destruct fetch as [d |]; simpl; [| by destruct oracle_id].
        destruct oracle_id; simpl; destruct (ws s); simpl; rewrite ?Hsub;
          try done; by destruct send_ok.
Qed.

Lemma remove_account_keys_same_subscriptions (pubkey : Pubkey)
  (oracle_id : option string) (s : State) :
  same_subscriptions s (remove_account_keys pubkey oracle_id s).1.
Proof.
  unfold remove_account_keys. destruct oracle_id as [o |]; simpl.
  - by destruct (pubkey_to_oracle_ids s !! pubkey).
  - destruct (pubkey_to_oracle_ids s !! pubkey) as [ids |]; [| done].
    destruct (forget_fold_frame s ids) as (_ & Hm & Hp & _). by split.
Qed.

(** On a consistent state [remove_account] finds the subscription id it
    deletes, and leaves a consistent state. *)
Lemma remove_account_consistent (pubkey : Pubkey) (oracle_id : option string)
  (s : State) :
  subscriptions_consistent s →
  (remove_account pubkey oracle_id s).2 = false
  ∧ subscriptions_consistent (remove_account pubkey oracle_id s).1.1.
Proof.
  intros Hs. unfold remove_account.
  pose proof (remove_account_keys_same_subscriptions pubkey oracle_id s)
    as Hsame.
  destruct (remove_account_keys pubkey oracle_id s) as [s1 stop].
  simpl in Hsame. pose proof (consistent_same s s1 Hsame Hs) as Hs1.
  destruct stop; [done |].
  destruct (pubkey_to_subscription s1 !! pubkey) as [sid |] eqn:Hsid;
    [| done].
  rewrite (Hs1 pubkey sid Hsid). simpl. split; [done |].
  intros pk sid'. simpl. intros Hpk.
  apply lookup_delete_Some in Hpk as [Hne Hpk].
  pose proof (Hs1 pk sid' Hpk) as Hmap.
  rewrite lookup_delete_ne; [done |].
  intros <-. rewrite (Hs1 pubkey sid Hsid) in Hmap. congruence.
Qed.

Lemma record_subscription_consistent (pubkey : Pubkey) (result : Z)
  (s : State) :
  subscription_map s !! result = None →
  subscriptions_consistent s →
  subscriptions_consistent (record_subscription pubkey result s).
Proof.
  intros Hfresh Hs pk sid. simpl.
  destruct (decide (pk = pubkey)) as [-> | Hne].
  - rewrite lookup_insert_eq. intros [= <-]. by rewrite lookup_insert_eq.
  - rewrite lookup_insert_ne by done. intros Hpk.
    pose proof (Hs pk sid Hpk) as Hmap.
    rewrite lookup_insert_ne; [done |]. intros <-. congruence.
Qed.

Lemma handle_frame_consistent (f : Frame) (s : State) :
  fresh_confirmation (EvFrame f) s →
  subscriptions_consistent s →
  subscriptions_consistent (handle_frame f s).1.
Proof.
  intros Hfresh Hs.
  destruct f as [result id | subscription slot_field account_bytes |];
    simpl in *; [| | done].
  - unfold handle_confirmation.
    destruct (parse_request_id id) as [request_id e0].
    destruct (match request_id with
              | Some r => (λ e, (r, e)) <$> inflight_subscribes s !! r
              | None => None
              end) as [[r [pubkey o]] |]; simpl.
    + apply (consistent_same
               (record_subscription pubkey result
                  (set_inflight_subscribes
                     (delete r (inflight_subscribes s)) s))); [done |].
      by apply record_subscription_consistent.
    + destruct (pending_subscriptions s) as [| pubkey rest]; [done |].
      simpl. by apply (record_subscription_consistent pubkey result
                         (set_pending_subscriptions rest s)).
  - unfold handle_notification.
    destruct (subscription ≫= λ sid, subscription_map s !! sid)
      as [pubkey |]; [| done].
    destruct (decide (oracle_ids_of pubkey s ≠ ∅)); simpl.
    + destruct (notify_fold slot_field account_bytes s
                  (oracle_ids_of pubkey s)) as [Hframe _].
      eapply consistent_same; [| exact Hs]. by rewrite Hframe.
    + destruct (notify_key_frame slot_field account_bytes
                  (pubkey_str pubkey) s) as [Hframe _].
      eapply consistent_same; [| exact Hs]. by rewrite Hframe.
Qed.

Lemma step_consistent (e : Event) (s : State) :
  fresh_confirmation e s →
  subscriptions_consistent s →
  subscriptions_consistent (step e s).1.
Proof.
  intros Hfresh Hs. destruct e; simpl.
  - eapply consistent_same; [apply add_account_same_subscriptions | done].
  - by apply remove_account_consistent.
  - unfold fetch_one. destruct (decode_map s !! key_of pubkey oracle_id);
      [| done].
    destruct fetch as [d |]; simpl; [| done].
    eapply consistent_same; [| exact Hs].
    unfold _update_data. destruct d as [nd |]; [| done].
    destruct (cached _ s) as [cur |];
      [by destruct (slot nd >=? slot cur) | done].
  - destruct key as [pubkey | k]; simpl; [| done].
    by destruct (elements (oracle_ids_of pubkey s)) as [| o [| o' l]].
  - eapply consistent_same; [| exact Hs]. unfold subscribe.
    by destruct (task s).
  - unfold on_connected. simpl. destruct (running s).
    + destruct (subscribe_initial_cache send_ok
                  (initial_accounts (map_to_list (data_map s)).*1
                     (set_ws true s)) (set_ws true s) [])
        as (_ & _ & _ & Hm & Hp).
      eapply consistent_same; [| exact Hs]. by split.
    + by eapply consistent_same; [| exact Hs].
  - by apply handle_frame_consistent.
  - done.
  - intros pk sid. simpl. by rewrite lookup_empty.
  - intros pk sid. simpl. by rewrite lookup_empty.
  - intros pk sid. simpl. by rewrite lookup_empty.
  - unfold unsubscribe. simpl.
    destruct (task s); [destruct t |]; simpl;
      try (intros pk sid; simpl; by rewrite lookup_empty).
    by eapply consistent_same; [| exact Hs].
Qed.

(** X14.  As long as no confirmation carries a subscription id that the
    subscriber still has on record, every subscription id recorded for an
    address leads back to that address in [subscription_map], after any
    run of events; and in such a state [remove_account] never raises the
    [KeyError] of line 181. *)
Theorem subscription_maps_stay_consistent (es : list Event) (s : State) :
  subscriptions_consistent s →
  fresh_run es s →
  subscriptions_consistent (run es s).1
  ∧ ∀ pubkey oracle_id,
      (remove_account pubkey oracle_id (run es s).1).2 = false.
Proof.
  intros Hs Hfresh.
  assert (Hrun : subscriptions_consistent (run es s).1).
  { revert s Hs Hfresh. induction es as [| e es IH]; intros s Hs Hfresh;
      [done |].
    destruct Hfresh as [He Hes]. rewrite run_cons. simpl.
    apply IH; [by apply step_consistent | done]. }
  split; [exact Hrun |]. intros pubkey oracle_id.
  by apply remove_account_consistent.
Qed.

(** *** More on [add_account] and [remove_account] *)

(** X15.  [add_account] for an address without subscription on a connected
    subscriber whose [ws.send] returns.  Without initial value and with
    nothing cached under the key, the snapshot is fetched and stored as it
    arrives; with an initial value no snapshot is fetched and the value is
    stored.  In both cases the decoder is stored, one subscribe frame is
    sent with the id counter + 1, and that id is put in flight for the
    address and the synthetic key. *)
Theorem add_account_new_feed (pubkey : Pubkey) (decode : option Decoder)
  (oracle_id : option string) (s : State) :
  ws s = true →
  pubkey_to_subscription s !! pubkey = None →
  let key := key_of pubkey oracle_id in
  let next := request_id_counter s + 1 in
  (∀ fetched,
     cached key s = None →
     let r := add_account pubkey decode None oracle_id
                (FetchReturns fetched) true s in
     r.2 = [FetchSnapshot pubkey; SubscribeFrame next pubkey]
     ∧ data_map r.1 = <[key := fetched]> (data_map s)
     ∧ decode_map r.1 = <[key := decode_or_default decode]> (decode_map s)
     ∧ inflight_subscribes r.1
       = <[next := (pubkey, oracle_id)]> (inflight_subscribes s)
     ∧ request_id_counter r.1 = next)
  ∧ (∀ d fetch,
       let r := add_account pubkey decode (Some d) oracle_id fetch true s in
       r.2 = [SubscribeFrame next pubkey]
       ∧ data_map r.1 = <[key := Some d]> (data_map s)
       ∧ decode_map r.1 = <[key := decode_or_default decode]> (decode_map s)
       ∧ inflight_subscribes r.1
         = <[next := (pubkey, oracle_id)]> (inflight_subscribes s)
       ∧ request_id_counter r.1 = next).
Proof.
  intros Hws Hsub key next. split.
  - intros fetched Hcached.
    unfold add_account, add_account_register. rewrite Hsub. simpl.
    replace (cached (key_of pubkey oracle_id)
               (set_decode_map
                  (<[key_of pubkey oracle_id := decode_or_default decode]>
                     (decode_map s)) s)) with (@None DataAndSlot)
      by (symmetry; exact Hcached).
    unfold add_account_send.
    destruct oracle_id as [o |]; simpl; rewrite Hws, Hsub; done.
  - intros d fetch.
    unfold add_account, add_account_register. rewrite Hsub. simpl.
    unfold add_account_send.
    destruct oracle_id as [o |]; simpl; rewrite Hws, Hsub; done.
Qed.

(** X16.  An initial value passed to [add_account] does not go through the
    merge rule: unless the address already has a subscription and no
    synthetic key is given (then nothing is stored), the value is what the
    key holds afterwards, whatever slot was cached before. *)
Theorem add_account_initial_value_overwrites (pubkey : Pubkey)
  (decode : option Decoder) (d : DataAndSlot) (oracle_id : option string)
  (fetch : FetchOutcome) (send_ok : bool) (s : State) :
  pubkey_to_subscription s !! pubkey = None ∨ is_Some oracle_id →
  cached (key_of pubkey oracle_id)
    (add_account pubkey decode (Some d) oracle_id fetch send_ok s).1
  = Some d.
Proof.
  intros Hcase. unfold add_account, add_account_register.
  destruct (pubkey_to_subscription s !! pubkey) as [sid |] eqn:Hsub.
  - destruct Hcase as [? | [o ->]]; [done |]. simpl.
    unfold cached. simpl. by rewrite lookup_insert_eq.
  - simpl. unfold add_account_send, send_subscribe.
    destruct oracle_id as [o |]; simpl; destruct (ws s); simpl;
      rewrite ?Hsub; try destruct send_ok; simpl;
      unfold cached; simpl; by rewrite lookup_insert_eq.
Qed.

(** X17.  After [remove_account] without key for an address whose
    subscription is on record in both maps, a notification that still
    carries the old subscription id is rejected: the warning of line 423 is
    logged and nothing changes. *)
Theorem notification_after_remove_is_rejected (pubkey : Pubkey) (sid : Z)
  (slot_field : option Z) (account_bytes : bytes) (s : State) :
  pubkey_to_subscription s !! pubkey = Some sid →
  is_Some (subscription_map s !! sid) →
  let s' := (remove_account pubkey None s).1.1 in
  handle_frame (Notification (Some sid) slot_field account_bytes) s'
  = (s', [WarnUnknownSubscription (Some sid)]).
Proof.
  intros Hsid [pk' Hsub] s'.
  assert (Hgone : subscription_map s' !! sid = None).
  { unfold s', remove_account, remove_account_keys.
    destruct (pubkey_to_oracle_ids s !! pubkey) as [ids |]; simpl.
    - destruct (forget_fold_frame s ids) as (_ & Hm & Hp & _).
      rewrite Hp, Hsid, Hm, Hsub. simpl. by rewrite lookup_delete_eq.
    - rewrite Hsid, Hsub. simpl. by rewrite lookup_delete_eq. }
  simpl. unfold handle_notification. simpl. by rewrite Hgone.
Qed.

End Properties.

(** ** The properties on concrete runs *)

Import Scenario.

(** A closed equation between small values, and a closed decidable fact. *)
Ltac by_evaluation :=
  lazymatch goal with
  | |- _ = ?rhs => vm_cast_no_check (eq_refl rhs)
  end.
Ltac by_decision := apply (bool_decide_unpack _); vm_cast_no_check I.

(** *** [_update_data] *)

Lemma update_data_slot_monotonic_witness :
  _update_data K1 (Some slot3) (@init_state E)
  = set_data_map (<[K1 := Some slot3]> (data_map (@init_state E))) init_state
  ∧ _update_data K1 (Some slot4) (_update_data K1 (Some slot5) init_state)
    = _update_data K1 (Some slot5) (@init_state E)
  ∧ ∃ l1 w l2,
      slot3 :: [slot5; slot5_again; slot4] = l1 ++ w :: l2
      ∧ cached K1
          (apply_updates K1 (Some <$> slot3 :: [slot5; slot5_again; slot4])
             (@init_state E)) = Some w
      ∧ slot w = max_slot slot3 [slot5; slot5_again; slot4]
      ∧ Forall (λ y, slot y ≤ slot w) l1
      ∧ Forall (λ y, slot y < slot w) l2.
Proof.
  destruct (update_data_slot_monotonic (H:=E) K1 init_state)
    as (_ & Hreplace & _ & Hrun).
  destruct (update_data_slot_monotonic (H:=E) K1
              (_update_data K1 (Some slot5) init_state))
    as (_ & _ & Hkeep & _).
  split; [apply Hreplace; left; reflexivity |].
  split; [apply (Hkeep slot4 slot5); reflexivity |].
  apply Hrun. reflexivity.
Defined.

(** The run above ends with slot 5 and the value of the second update that
    carried it. *)
Example update_data_last_of_largest :
  cached K1
    (apply_updates K1 (Some <$> [slot3; slot5; slot5_again; slot4])
       (@init_state E)) = Some slot5_again.
Proof. reflexivity. Qed.

(** *** Notifications *)

(** The address [A] is subscribed under its own text [K1] and under the
    synthetic key [K2], both with a decoder.  A notification at slot 5 is
    merged under [K2] only: the value cached under [K1] stays at slot 1,
    although merging the update there would have replaced it. *)
Lemma notification_skips_address_key :
  let s := state_after address_and_synthetic in
  let s' := (handle_frame (Notification (Some 42) (Some 5) payload) s).1 in
  subscription_map s !! 42 = Some A
  ∧ is_Some (decode_map s !! K1)
  ∧ is_Some (decode_map s !! K2)
  ∧ cached K2 s' = Some new_value
  ∧ cached K1 s' = Some old_value
  ∧ cached K1 (_update_data K1 (Some new_value) s) = Some new_value.
Proof.
  intros s s'. split_and!; try by_evaluation; by_decision.
Qed.

Lemma notification_fan_out_witness :
  let s := state_after one_decoder_raises in
  let s' := (handle_frame (Notification (Some 42) (Some 5) payload) s).1 in
  s' = set_data_map (data_map s') s
  ∧ data_map s' !! K3
    = data_map (_update_data K3 (Some new_value) s) !! K3
  ∧ data_map s' !! K2 = data_map s !! K2
  ∧ data_map s' !! K1 = data_map s !! K1.
Proof.
  intros s s'.
  destruct (notification_fan_out (H:=E) 42 A (Some 5) payload s)
    as (Hframe & Hmerge & Hraise & Hother); [by_evaluation |].
  split; [exact Hframe |]. split_and!.
  - apply (Hmerge K3 decode_identity 5 payload).
    + by_decision.
    + by_evaluation.
    + reflexivity.
    + reflexivity.
  - apply (Hraise K2 decode_raises); [by_evaluation | reflexivity].
  - apply Hother. by_decision.
Defined.

(** In that run the key whose decoder raises keeps slot 1 and its sibling
    moves to slot 5. *)
Example notification_isolates_decode_failure :
  let s' := (handle_frame (Notification (Some 42) (Some 5) payload)
               (state_after one_decoder_raises)).1 in
  cached K2 s' = Some old_value ∧ cached K3 s' = Some new_value.
Proof. intros s'. split; by_evaluation. Qed.

(** *** [remove_account] *)

(** The address [A] is subscribed under [K1] and [K2].  Removing [K2] sends
    the unsubscribe frame and deletes the subscription entries of [A] and
    the decoder and cached value of [K1]. *)
Lemma remove_synthetic_key_purges_address_key :
  let s := state_after address_and_synthetic in
  let r := remove_account A (Some K2) s in
  cached K1 s = Some old_value
  ∧ is_Some (decode_map s !! K1)
  ∧ pubkey_to_subscription s !! A = Some 42
  ∧ r.1.2 = [UnsubscribeFrame 42]
  ∧ cached K1 r.1.1 = None
  ∧ decode_map r.1.1 !! K1 = None
  ∧ pubkey_to_subscription r.1.1 !! A = None
  ∧ subscription_map r.1.1 !! 42 = None.
Proof.
  intros s r. split_and!; try by_evaluation. by_decision.
Qed.

Lemma remove_account_partial_and_full_witness :
  (let s := state_after two_synthetic in
   let r := remove_account A (Some K2) s in
   r.1.2 = [] ∧ r.2 = false
   ∧ subscription_map r.1.1 = subscription_map s
   ∧ pubkey_to_subscription r.1.1 = pubkey_to_subscription s
   ∧ decode_map r.1.1 = delete K2 (decode_map s)
   ∧ data_map r.1.1 = delete K2 (data_map s)
   ∧ oracle_id_to_subscription r.1.1
     = delete K2 (oracle_id_to_subscription s)
   ∧ pubkey_to_oracle_ids r.1.1
     = <[A := {[K2; K3]} ∖ {[K2]}]> (pubkey_to_oracle_ids s))
  ∧ (let s := state_after address_and_synthetic in
     let r := remove_account A (Some K2) s in
     r.1.2 = (if ws s then [UnsubscribeFrame 42] else []) ∧ r.2 = false
     ∧ pubkey_to_subscription r.1.1 !! A = None
     ∧ subscription_map r.1.1 !! 42 = None
     ∧ decode_map r.1.1 !! pubkey_str A = None
     ∧ data_map r.1.1 !! pubkey_str A = None
     ∧ initial_data_map r.1.1 !! pubkey_str A = None
     ∧ oracle_ids_of A r.1.1 = ∅
     ∧ ∀ k, k ∈ oracle_ids_of A s →
            decode_map r.1.1 !! k = None
            ∧ data_map r.1.1 !! k = None
            ∧ oracle_id_to_subscription r.1.1 !! k = None).
Proof.
  split.
  - destruct (remove_account_partial_and_full (H:=E) A
                (state_after two_synthetic)) as [Hpartial _].
    apply (Hpartial K2 {[K2; K3]}).
    + by_evaluation.
    + by_decision.
  - destruct (remove_account_partial_and_full (H:=E) A
                (state_after address_and_synthetic)) as [_ Hfull].
    apply (Hfull (Some K2) 42).
    + by_evaluation.
    + by_evaluation.
    + by_decision.
Defined.

(** *** [add_account] *)

(** The address [A] is subscribed under the synthetic key [K2] only.  A
    further [add_account] for [A] under its own text, with a decoder and an
    initial value, changes nothing: no decoder and no value are stored under
    [K1]. *)
Lemma add_account_address_key_not_registered :
  let s := state_after synthetic_confirmed in
  let r := add_account A (Some decode_identity) (Some new_value) None
             FetchRaises true s in
  pubkey_to_subscription s !! A = Some 42
  ∧ r.2 = []
  ∧ decode_map r.1 !! K1 = None
  ∧ data_map r.1 !! K1 = None
  ∧ oracle_ids_of A r.1 = {[K2]}.
Proof. intros s r. split_and!; by_evaluation. Qed.

Lemma add_account_already_subscribed_witness :
  let s := state_after synthetic_confirmed in
  let r := add_account A (Some decode_identity) (Some new_value) (Some K3)
             FetchRaises true s in
  r.2 = []
  ∧ inflight_subscribes r.1 = inflight_subscribes s
  ∧ request_id_counter r.1 = request_id_counter s
  ∧ subscription_map r.1 = subscription_map s
  ∧ pubkey_to_subscription r.1 = pubkey_to_subscription s
  ∧ decode_map r.1
    = <[K3 := decode_or_default (H:=E) (Some decode_identity)]> (decode_map s)
  ∧ data_map r.1 = <[K3 := Some new_value]> (data_map s)
  ∧ oracle_id_to_subscription r.1
    = <[K3 := 42]> (oracle_id_to_subscription s)
  ∧ pubkey_to_oracle_ids r.1
    = <[A := oracle_ids_of A s ∪ {[K3]}]> (pubkey_to_oracle_ids s).
Proof.
  intros s r.
  apply (add_account_already_subscribed (H:=E) A (Some decode_identity)
           (Some new_value) (Some K3) FetchRaises true s 42).
  by_evaluation.
Defined.

(** Two synthetic keys of one address added before the first confirmation
    arrives: two subscribe frames are sent for the address, and after both
    confirmations two subscription ids are mapped to it. *)
Example two_adds_before_confirmation_two_frames :
  (run two_adds_before_confirmation init_state).2
  = [SubscribeFrame 1 A; SubscribeFrame 2 A]
  ∧ let s := state_after
               (two_adds_before_confirmation
                ++ [EvFrame (Confirmation 10 (IdInt 1));
                    EvFrame (Confirmation 11 (IdInt 2))]) in
    subscription_map s !! 10 = Some A ∧ subscription_map s !! 11 = Some A.
Proof. split; [by_evaluation |]. intros s. split; by_evaluation. Qed.

(** A subscriber fresh from [__init__]; [add_account] with the synthetic
    key [K2], no initial value, and a snapshot fetch that raises.  The
    call prints and returns; the decoder of [K2] and the key itself stay. *)
Lemma fetch_failure_leaves_decoder :
  let r := add_account A (Some decode_identity) None (Some K2) FetchRaises true
             (@init_state E) in
  r.2 = [FetchSnapshot A; PrintFetchError A]
  ∧ is_Some (decode_map r.1 !! K2)
  ∧ oracle_ids_of A r.1 = {[K2]}
  ∧ data_map r.1 !! K2 = None.
Proof.
  intros r. split_and!; try by_evaluation. by_decision.
Qed.

Lemma add_account_fetch_failure_witness :
  let s := @init_state E in
  let r := add_account A (Some decode_identity) None (Some K2) FetchRaises true
             s in
  r.2 = [FetchSnapshot A; PrintFetchError A]
  ∧ decode_map r.1
    = <[key_of A (Some K2) := decode_or_default (H:=E) (Some decode_identity)]>
        (decode_map s)
  ∧ data_map r.1 = data_map s
  ∧ inflight_subscribes r.1 = inflight_subscribes s
  ∧ request_id_counter r.1 = request_id_counter s
  ∧ subscription_map r.1 = subscription_map s
  ∧ pubkey_to_subscription r.1 = pubkey_to_subscription s
  ∧ pubkey_to_oracle_ids r.1
    = <[A := oracle_ids_of A s ∪ {[K2]}]> (pubkey_to_oracle_ids s).
Proof.
  intros s r.
  apply (add_account_fetch_failure (H:=E) A (Some decode_identity) (Some K2) true
           s); reflexivity.
Defined.

(** *** Confirmations and disconnects *)

(** C7 on a run.  One subscribe is in flight, sent by [add_account], and
    unconfirmed.  A confirmation without [id] arrives with subscription id
    42.  The pending list is empty, so nothing is matched: the warning of
    line 407 is logged, the state is as before and [A] has no subscription
    id. *)
Lemma confirmation_without_id_records_nothing :
  let s := state_after one_in_flight in
  inflight_subscribes s !! 1 = Some (A, None)
  ∧ pending_subscriptions s = []
  ∧ handle_frame (Confirmation 42 IdNone) s = (s, [WarnNoPending None 42])
  ∧ pubkey_to_subscription
      (handle_frame (Confirmation 42 IdNone) s).1 !! A = None.
Proof.
  intros s.
  assert (Hflight : inflight_subscribes s !! 1 = Some (A, None))
    by by_evaluation.
  assert (Hpend : pending_subscriptions s = []) by by_evaluation.
  assert (Hsub : pubkey_to_subscription s !! A = None) by by_evaluation.
  clearbody s.
  assert (Hframe : handle_frame (Confirmation 42 IdNone) s
                   = (s, [WarnNoPending None 42])).
  { simpl. unfold handle_confirmation. simpl. by rewrite Hpend. }
  split_and!; [exact Hflight | exact Hpend | exact Hframe |].
  rewrite Hframe. exact Hsub.
Qed.

(** C8 on a run.  [A] is subscribed with subscription id 42 when [recv]
    raises [ConnectionClosed].  Both subscription maps still hold the
    entry; on the next connection no subscribe frame is sent for [A].  After
    the handler of lines 468-475 the maps are empty and [A] is subscribed
    again. *)
Lemma recv_connection_closed_keeps_subscription_maps :
  let s := state_after address_confirmed in
  let s' := (step EvRecvConnectionClosed s).1 in
  subscription_map s' !! 42 = Some A
  ∧ pubkey_to_subscription s' !! A = Some 42
  ∧ (on_connected always_sent s').2 = []
  ∧ subscription_map (step EvLoopConnectionClosed s).1 = ∅
  ∧ (on_connected always_sent (step EvLoopConnectionClosed s).1).2
    = [SubscribeFrame 2 A].
Proof. intros s s'. split_and!; by_evaluation. Qed.

(** C6 on a run.  Request 1 is in flight when [recv] raises
    [ConnectionClosed]; the task reconnects and sends request 2.  Request 1
    is still in flight, and a late confirmation that carries id 1 is
    matched: no warning, and its subscription id is recorded for [A]. *)
Lemma stale_confirmation_matches_after_recv_closed :
  let s := state_after reconnected_after_recv_closed in
  (run reconnected_after_recv_closed init_state).2
  = [SubscribeFrame 1 A; SubscribeFrame 2 A]
  ∧ inflight_subscribes s !! 1 = Some (A, None)
  ∧ (handle_frame (Confirmation 7 (IdInt 1)) s).2 = []
  ∧ pubkey_to_subscription
      (handle_frame (Confirmation 7 (IdInt 1)) s).1 !! A = Some 7.
Proof. intros s. split_and!; by_evaluation. Qed.

(** *** [unsubscribe] and [get_data] *)

Lemma unsubscribe_complete_idempotent_witness :
  let s := state_after address_and_synthetic in
  (unsubscribe TaskCancelled s).2 = false
  ∧ (unsubscribe TaskCancelled s).1.1 = init_state
  ∧ ∀ t', unsubscribe t' (unsubscribe TaskCancelled s).1.1
          = ((unsubscribe TaskCancelled s).1.1, [], false).
Proof.
  intros s.
  destruct (unsubscribe_complete_idempotent (H:=E) TaskCancelled s)
    as [Hreturns Hcleared].
  assert (Hret : (unsubscribe TaskCancelled s).2 = false)
    by (apply Hreturns; right; discriminate).
  split; [exact Hret |]. apply Hcleared. exact Hret.
Defined.

Lemma get_data_reads_cache_witness :
  get_data (KeyPubkey A) (state_after address_confirmed)
  = (state_after address_confirmed, [],
     cached (pubkey_str A) (state_after address_confirmed))
  ∧ get_data (KeyPubkey A) (state_after synthetic_confirmed)
    = (state_after synthetic_confirmed, [],
       cached K2 (state_after synthetic_confirmed))
  ∧ cached K1 (state_after address_confirmed) = Some old_value
  ∧ cached K2 (state_after address_confirmed) = None.
Proof.
  destruct (get_data_reads_cache (H:=E) (state_after address_confirmed))
    as (Hnone & _ & _ & Hsome & Habsent & _).
  destruct (get_data_reads_cache (H:=E) (state_after synthetic_confirmed))
    as (_ & Hone & _).
  split_and!.
  - apply Hnone. by_evaluation.
  - apply Hone. by_evaluation.
  - apply Hsome. by_evaluation.
  - apply Habsent. by_evaluation.
Defined.

(** *** Further properties on concrete runs *)

Lemma confirmation_matched_witness :
  let s := state_after one_in_flight in
  let r := handle_frame (Confirmation 42 (IdStr numeral_one)) s in
  (parse_request_id (H:=E) (IdStr numeral_one)).1 = Some 1
  ∧ inflight_subscribes s !! 1 = Some (A, None)
  ∧ r.2 = []
  ∧ inflight_subscribes r.1 = delete 1 (inflight_subscribes s)
  ∧ subscription_map r.1 = <[42 := A]> (subscription_map s)
  ∧ pubkey_to_subscription r.1 = <[A := 42]> (pubkey_to_subscription s).
Proof.
  intros s r.
  assert (Hid : (parse_request_id (H:=E) (IdStr numeral_one)).1 = Some 1)
    by by_evaluation.
  assert (Hin : inflight_subscribes s !! 1 = Some (A, None))
    by by_evaluation.
  destruct (confirmation_matched (H:=E) 42 1 (IdStr numeral_one) A None s
              Hid Hin) as (He & Hi & Hm & Hp & _).
  by split_and!.
Defined.

Lemma request_ids_strictly_increasing_witness :
  let r := run reconnected_after_recv_closed (@init_state E) in
  forallb (λ e, negb (is_unsubscribe e)) reconnected_after_recv_closed = true
  ∧ request_id_counter (@init_state E) ≤ request_id_counter r.1
  ∧ StronglySorted Z.lt (subscribe_ids r.2)
  ∧ Forall (λ i, request_id_counter (@init_state E) < i
                 ≤ request_id_counter r.1) (subscribe_ids r.2).
Proof.
  intros r.
  assert (Hes : forallb (λ e, negb (is_unsubscribe e))
                  reconnected_after_recv_closed = true) by reflexivity.
  split; [exact Hes |].
  exact (request_ids_strictly_increasing (H:=E)
           reconnected_after_recv_closed init_state Hes).
Defined.

Lemma next_request_id_is_free_witness :
  let s := state_after one_in_flight in
  inflight_subscribes s !! 1 = Some (A, None)
  ∧ 0 < 1 ≤ request_id_counter s
  ∧ inflight_subscribes s !! (request_id_counter s + 1) = None.
Proof.
  intros s.
  assert (Hin : inflight_subscribes s !! 1 = Some (A, None))
    by by_evaluation.
  destruct (next_request_id_is_free (H:=E) one_in_flight)
    as (_ & Hbound & Hfree).
  split; [exact Hin |].
  split; [exact (Hbound 1 (A, None) Hin) | exact Hfree].
Defined.

Lemma pending_subscriptions_always_empty_witness :
  let s := state_after one_in_flight in
  inflight_subscribes s !! 9 = None
  ∧ pending_subscriptions s = []
  ∧ (handle_frame (Confirmation 42 (IdInt 9)) s).1 = s
  ∧ WarnNoPending (Some 9) 42 ∈ (handle_frame (Confirmation 42 (IdInt 9)) s).2.
Proof.
  intros s.
  assert (Hno : inflight_subscribes s !! 9 = None) by by_evaluation.
  destruct (pending_subscriptions_always_empty (H:=E) one_in_flight 42
              (IdInt 9)) as [Hpend Hdrop].
  destruct Hdrop as [Hstate Hwarn].
  { intros r [= <-]. exact Hno. }
  by split_and!.
Defined.

Lemma confirmation_after_clear_is_dropped_witness :
  let s0 := state_after one_in_flight in
  let s := (run [EvConnectError; EvConnected always_sent] s0).1 in
  pending_subscriptions s0 = []
  ∧ 1 ≤ request_id_counter s0
  ∧ handle_frame (Confirmation 7 (IdInt 1)) s
    = (s, [WarnNoPending (Some 1) 7]).
Proof.
  intros s0 s.
  assert (Hpend : pending_subscriptions s0 = []) by by_evaluation.
  assert (Hold : 1 ≤ request_id_counter s0) by by_decision.
  split_and!; [exact Hpend | exact Hold |].
  apply (confirmation_after_clear_is_dropped (H:=E) s0 EvConnectError
           [EvConnected always_sent] 7 1); try done.
  apply elem_of_cons. right. apply elem_of_cons. right.
  by apply list_elem_of_singleton.
Defined.

Lemma add_account_send_failure_witness :
  let s := state_after connected_idle in
  let r := add_account A None (Some old_value) None FetchRaises false s in
  ws s = true
  ∧ pubkey_to_subscription s !! A = None
  ∧ inflight_subscribes s !! (request_id_counter s + 1) = None
  ∧ r.2 = [SubscribeFrame (request_id_counter s + 1) A;
           PrintSubscribeError A]
  ∧ request_id_counter r.1 = request_id_counter s + 1
  ∧ inflight_subscribes r.1 = inflight_subscribes s.
Proof.
  intros s r.
  assert (Hws : ws s = true) by by_evaluation.
  assert (Hsub : pubkey_to_subscription s !! A = None) by by_evaluation.
  assert (Hfree : inflight_subscribes s !! (request_id_counter s + 1) = None)
    by by_evaluation.
  destruct (add_account_send_failure (H:=E) A None old_value None FetchRaises
              s Hws Hsub Hfree) as (He & Hc & Hi & _).
  by split_and!.
Defined.

Lemma initial_accounts_distinct_and_complete_witness :
  let keys := [K1; K2; K3] in
  pubkey_of_key (H:=E) K2 = Some A
  ∧ NoDup ((initial_accounts keys (@init_state E)).*1)
  ∧ A ∈ (initial_accounts keys (@init_state E)).*1
  ∧ pubkey_of_key (H:=E) K1 = Some A.
Proof.
  intros keys.
  assert (Hkey : pubkey_of_key (H:=E) K2 = Some A) by by_evaluation.
  assert (Hlisted : (A, K1) ∈ initial_accounts keys (@init_state E))
    by by_decision.
  destruct (initial_accounts_distinct_and_complete (H:=E) keys init_state)
    as (Hnd & Hsound & Hcomplete).
  split_and!; [exact Hkey | exact Hnd | | ].
  - apply (Hcomplete K2 A); [by_decision | exact Hkey | by_evaluation].
  - by destruct (Hsound A K1 Hlisted) as (_ & ? & _).
Defined.

(** The three keys stand for one address: one entry, under the first key. *)
Example initial_accounts_one_entry :
  initial_accounts [K1; K2; K3] (@init_state E) = [(A, K1)].
Proof. by_evaluation. Qed.


(** Two synthetic keys added before the connection: one frame, id 1. *)
Example on_connected_dedups_keys :
  subscribe_frames
    (on_connected always_sent (state_after added_before_connect)).2
  = [(1, A)].
Proof. by_evaluation. Qed.

Lemma added_while_disconnected_subscribed_on_connect_witness :
  let s := state_after [EvSubscribe] in
  let r1 := add_account A None (Some old_value) (Some K2) FetchRaises true s in
  let frames := subscribe_frames (on_connected always_sent r1.1).2 in
  ws s = false
  ∧ running s = true
  ∧ pubkey_to_subscription s !! A = None
  ∧ pubkey_of_key (H:=E) (key_of A (Some K2)) = Some A
  ∧ r1.2 = [] ∧ A ∈ frames.*2 ∧ NoDup (frames.*2).
Proof.
  intros s r1 frames.
  assert (Hws : ws s = false) by by_evaluation.
  assert (Hrun : running s = true) by by_evaluation.
  assert (Hsub : pubkey_to_subscription s !! A = None) by by_evaluation.
  assert (Hkey : pubkey_of_key (H:=E) (key_of A (Some K2)) = Some A)
    by by_evaluation.
  destruct (added_while_disconnected_subscribed_on_connect (H:=E) A None
              old_value (Some K2) FetchRaises true always_sent s
              Hws Hrun Hsub Hkey) as (He & Hin & Hnd).
  by split_and!.
Defined.

Lemma pubkey_of_key_resolution_witness :
  isdigit numeral_one = true
  ∧ pubkey_of_key (H:=E) (String.append K1 (String "-" numeral_one))
    = pubkey_from_string (Externals:=E) K1
  ∧ pubkey_of_key (H:=E) K1 = pubkey_from_string (Externals:=E) K1
  ∧ K2 = String.append K1 (String "-" numeral_one).
Proof.
  destruct (pubkey_of_key_resolution (H:=E)) as (Hid & Hplain & Hsplit).
  split_and!.
  - reflexivity.
  - apply Hid. reflexivity.
  - apply Hplain. simpl. intros [Heq | []]. discriminate Heq.
  - apply (Hsplit K2 K1 numeral_one). reflexivity.
Defined.

Lemma cache_slots_never_decrease_witness :
  let s := state_after address_confirmed in
  forallb merges_only pushes_out_of_order = true
  ∧ decode_map (run pushes_out_of_order s).1 = decode_map s
  ∧ slot_le (cached K1 s) (cached K1 (run pushes_out_of_order s).1).
Proof.
  intros s.
  assert (Hes : forallb (merges_only (H:=E)) pushes_out_of_order = true)
    by reflexivity.
  destruct (cache_slots_never_decrease (H:=E) pushes_out_of_order s Hes)
    as (Hd & _ & Hk).
  split_and!; [exact Hes | exact Hd | exact (Hk K1)].
Defined.

(** In that run the cache ends at slot 5: the older push is ignored. *)
Example pushes_out_of_order_keep_newest :
  cached K1 (run pushes_out_of_order (state_after address_confirmed)).1
  = Some new_value.
Proof. by_evaluation. Qed.

Lemma read_after_notification_witness :
  let s := state_after address_confirmed in
  let s' := (handle_frame (Notification (Some 42) (Some 5) payload) s).1 in
  subscription_map s !! 42 = Some A
  ∧ oracle_ids_of A s = ∅
  ∧ decode_map s !! pubkey_str A = Some decode_identity
  ∧ (get_data (KeyPubkey A) s').2
    = match cached (pubkey_str A) s with
      | Some cur => if 5 >=? slot cur then Some new_value else Some cur
      | None => Some new_value
      end.
Proof.
  intros s s'.
  assert (Hsid : subscription_map s !! 42 = Some A) by by_evaluation.
  assert (Hids : oracle_ids_of A s = ∅) by by_evaluation.
  assert (Hdec : decode_map s !! pubkey_str A = Some decode_identity)
    by by_evaluation.
  split_and!; [exact Hsid | exact Hids | exact Hdec |].
  exact (read_after_notification (H:=E) A 42 5 payload decode_identity payload
           s Hsid Hids Hdec eq_refl).
Defined.

Lemma fetch_all_per_key_witness :
  let s := state_after address_and_synthetic in
  let r := fetch_all only_address_answers s in
  is_Some (decode_map s !! K1)
  ∧ is_Some (pubkey_of_key (H:=E) K1)
  ∧ data_map r.1 !! K1
    = data_map (_update_data K1 (Some new_value) s) !! K1
  ∧ data_map r.1 !! K2 = data_map s !! K2.
Proof.
  intros s r.
  assert (Hdec : is_Some (decode_map s !! K1)) by by_decision.
  assert (Hpk : is_Some (pubkey_of_key (H:=E) K1)) by by_decision.
  destruct (fetch_all_per_key (H:=E) only_address_answers s)
    as (_ & Hmerge & Hkeep).
  split_and!; [exact Hdec | exact Hpk | |].
  - apply (Hmerge K1 (Some new_value) Hdec Hpk). reflexivity.
  - apply (Hkeep K2). left. reflexivity.
Defined.

(** In that run the snapshot replaces the value of [K1], and [K2], whose
    request raised, keeps slot 1. *)
Example fetch_all_isolates_failure :
  let r := fetch_all only_address_answers (state_after address_and_synthetic) in
  cached K1 r.1 = Some new_value ∧ cached K2 r.1 = Some old_value.
Proof. intros r. split; by_evaluation. Qed.

Lemma subscription_maps_stay_consistent_witness :
  subscriptions_consistent (@init_state E)
  ∧ fresh_run address_and_synthetic (@init_state E)
  ∧ subscriptions_consistent (state_after address_and_synthetic)
  ∧ (remove_account A (Some K2) (state_after address_and_synthetic)).2 = false.
Proof.
  assert (Hinit : subscriptions_consistent (@init_state E)).
  { intros pk sid. simpl. by rewrite lookup_empty. }
  assert (Hfresh : fresh_run address_and_synthetic (@init_state E)).
  { cbv [address_and_synthetic address_confirmed app fresh_run
           fresh_confirmation].
    split_and!; try exact I. by_evaluation. }
  destruct (subscription_maps_stay_consistent (H:=E) address_and_synthetic
              init_state Hinit Hfresh) as [Hcons Hremove].
  split_and!; [exact Hinit | exact Hfresh | exact Hcons |].
  exact (Hremove A (Some K2)).
Defined.

(** Two addresses confirmed with the same subscription id: the first
    [remove_account] deletes the shared entry and returns, the second one
    raises [KeyError] at line 181. *)
Example remove_account_raises_on_shared_id :
  let s := state_after same_id_twice in
  (remove_account A None s).2 = false
  ∧ (remove_account B None (remove_account A None s).1.1).2 = true.
Proof. intros s. split; by_evaluation. Qed.

Lemma add_account_new_feed_witness :
  let s := state_after connected_idle in
  let r := add_account A None None None (FetchReturns (Some new_value)) true
             s in
  ws s = true
  ∧ pubkey_to_subscription s !! A = None
  ∧ cached (key_of A None) s = None
  ∧ r.2 = [FetchSnapshot A; SubscribeFrame (request_id_counter s + 1) A]
  ∧ data_map r.1 = <[key_of A None := Some new_value]> (data_map s)
  ∧ inflight_subscribes r.1
    = <[request_id_counter s + 1 := (A, None)]> (inflight_subscribes s).
Proof.
  intros s r.
  assert (Hws : ws s = true) by by_evaluation.
  assert (Hsub : pubkey_to_subscription s !! A = None) by by_evaluation.
  assert (Hcached : cached (key_of A None) s = None) by by_evaluation.
  destruct (add_account_new_feed (H:=E) A None None s Hws Hsub)
    as [Hfetch _].
  destruct (Hfetch (Some new_value) Hcached) as (He & Hd & _ & Hi & _).
  by split_and!.
Defined.

Lemma add_account_initial_value_overwrites_witness :
  let s := state_after
             [EvAddAccount A None (Some new_value) None FetchRaises true] in
  pubkey_to_subscription s !! A = None
  ∧ cached (key_of A None) s = Some new_value
  ∧ cached (key_of A None)
      (add_account A None (Some old_value) None FetchRaises true s).1
    = Some old_value.
Proof.
  intros s.
  assert (Hsub : pubkey_to_subscription s !! A = None) by by_evaluation.
  split_and!; [exact Hsub | by_evaluation |].
  apply (add_account_initial_value_overwrites (H:=E) A None old_value None
           FetchRaises true s).
  left. exact Hsub.
Defined.

Lemma notification_after_remove_is_rejected_witness :
  let s := state_after address_confirmed in
  let s' := (remove_account A None s).1.1 in
  pubkey_to_subscription s !! A = Some 42
  ∧ is_Some (subscription_map s !! 42)
  ∧ handle_frame (Notification (Some 42) (Some 5) payload) s'
    = (s', [WarnUnknownSubscription (Some 42)]).
Proof.
  intros s s'.
  assert (Hsid : pubkey_to_subscription s !! A = Some 42) by by_evaluation.
  assert (Hsub : is_Some (subscription_map s !! 42)) by by_decision.
  split_and!; [exact Hsid | exact Hsub |].
  exact (notification_after_remove_is_rejected (H:=E) A 42 (Some 5) payload s
           Hsid Hsub).
Defined.
